(** * generate_pizza.py: bitmap layout and calendar mapping

    A shallow embedding of [generate_pizza.py]: the 5x7 font table, the
    bitmap builder, the week alignment of the grid origin, the loop that
    turns "on" pixels into calendar dates, and [main] with its observable
    effects (console output, git invocations) as a trace. *)

From Stdlib Require Import ZArith Ascii String List Lia.
From stdpp Require Import base option list sorting gmap strings.

Local Open Scope string_scope.
Local Open Scope list_scope.
Local Open Scope Z_scope.

(** ** Calendar dates *)

(** A [datetime.date] is its proleptic Gregorian ordinal; 0001-01-01 is
    day 1 and 9999-12-31 the last day. *)
Record date := Date { toordinal : Z }.

(** ** Exceptions and results *)

(** Texts of the messages the script prints or attaches to an exception;
    the payload is what the f-string interpolates. *)
Inductive text :=
  | NoFontPattern (ch : ascii)
  | ErrNotGitRepo
  | ErrInvalidDate
  | ErrCommitFailed (dt : date)
  | WarnNotSunday
  | MsgBitmapWidth (message : string) (total_cols : nat)
  | MsgStartSunday (start_sunday : date)
  | MsgEndWeek (end_week current_week_sunday : date)
  | MsgDryRunHeader
  | MsgTotals (pixels : nat) (per_pixel total : Z)
  | MsgDate (d : date)
  | MsgDoneDryRun
  | MsgAborted
  | MsgAllCreated.

Inductive exn :=
  | ValueError (t : text)
  | IndexError
  | OverflowError
  | SystemExit (code : Z).

Inductive result (A : Type) :=
  | Ok (a : A)
  | Raise (e : exn).
Arguments Ok {A} a.
Arguments Raise {A} e.

Definition rbind {A B} (k : A -> result B) (r : result A) : result B :=
  match r with
  | Ok a => k a
  | Raise e => Raise e
  end.

(** [x ← r; k] runs [k] on the value of [r] and propagates an exception. *)
#[global] Instance result_ret : MRet result := @Ok.
#[global] Instance result_bind : MBind result := @rbind.

(** [for x in xs: s = body(s, x)], stopping at the first exception. *)
Fixpoint for_each {S A} (xs : list A) (body : S -> A -> result S) (s : S)
  : result S :=
  match xs with
  | [] => Ok s
  | x :: xs' => body s x ≫= for_each xs' body
  end.

(** [range(n)] *)
Definition range (n : nat) : list nat := seq 0 n.

(** ** datetime.date *)

Module datetime.

Definition MAXORDINAL : Z := 3652059.  (* date(9999, 12, 31).toordinal() *)

Definition valid_ordinal (o : Z) : Prop := 0 < o <= MAXORDINAL.

(** [date.weekday()]: Monday = 0 .. Sunday = 6. *)
Definition weekday (d : date) : Z := (toordinal d + 6) mod 7.

(** [timedelta(days=n)] and [timedelta(weeks=n)], as a number of days. *)
Definition days (n : Z) : Z := n.
Definition weeks (n : Z) : Z := 7 * n.

(** [d + delta]: OverflowError when the result is not a date. *)
Definition add (d : date) (delta : Z) : result date :=
  let o := toordinal d + delta in
  if (0 <? o) && (o <=? MAXORDINAL) then Ok (Date o) else Raise OverflowError.

(** [d - delta] is [d + (-delta)]. *)
Definition sub (d : date) (delta : Z) : result date := add d (- delta).

Definition is_leap (y : Z) : bool :=
  (y mod 4 =? 0) && (negb (y mod 100 =? 0) || (y mod 400 =? 0)).

Definition days_before_year (y : Z) : Z :=
  let y1 := y - 1 in y1 * 365 + y1 / 4 - y1 / 100 + y1 / 400.

Definition days_in_month (y m : Z) : Z :=
  if (m =? 2) && is_leap y then 29
  else nth (Z.to_nat m) [0; 31; 28; 31; 30; 31; 30; 31; 31; 30; 31; 30; 31] 0.

Definition days_before_month (y m : Z) : Z :=
  nth (Z.to_nat m) [0; 0; 31; 59; 90; 120; 151; 181; 212; 243; 273; 304; 334] 0
  + (if (2 <? m) && is_leap y then 1 else 0).

Definition ymd2ord (y m d : Z) : Z :=
  days_before_year y + days_before_month y m + d.

(** [date(y, m, d)]: ValueError (here [None]) outside the calendar. *)
Definition mkdate (y m d : Z) : option date :=
  if (1 <=? y) && (y <=? 9999) && (1 <=? m) && (m <=? 12)
     && (1 <=? d) && (d <=? days_in_month y m)
  then Some (Date (ymd2ord y m d)) else None.

(** The date of a year, month and day known to be on the calendar. *)
Definition ymd (y m d : Z) : date := Date (ymd2ord y m d).

Definition lt (d1 d2 : date) : Prop := toordinal d1 < toordinal d2.

End datetime.

Import datetime.

#[global] Instance date_eq_dec : EqDecision date.
Proof. solve_decision. Defined.

(** ** The font table *)

(** The dictionary literal bound to [FONT]: five patterns, and the four
    lowercase keys still bound to [None]. *)
Definition FONT_literal : gmap ascii (option (list string)) :=
  <["P"%char := Some ["11110"; "10001"; "10001"; "11110"; "10000"; "10000"; "10000"]]>
  (<["I"%char := Some ["01110"; "00100"; "00100"; "00100"; "00100"; "00100"; "01110"]]>
  (<["Z"%char := Some ["11111"; "00001"; "00010"; "00100"; "01000"; "10000"; "11111"]]>
  (<["A"%char := Some ["01110"; "10001"; "10001"; "11111"; "10001"; "10001"; "10001"]]>
  (<["!"%char := Some ["00100"; "00100"; "00100"; "00100"; "00100"; "00000"; "00100"]]>
  (<["p"%char := None]>
  (<["i"%char := None]>
  (<["z"%char := None]>
  (<["a"%char := None]> ∅)))))))).

(** [d[k]] for a key the dictionary holds (here every read is of a key of
    the literal; a missing key reads as [None]). *)
Definition getitem (d : gmap ascii (option (list string))) (k : ascii)
  : option (list string) := mjoin (d !! k).

(** The four assignments [FONT["p"] = FONT["P"]] ... run at import. *)
Definition FONT : gmap ascii (option (list string)) :=
  let f := FONT_literal in
  let f := <["p"%char := getitem f "P"%char]> f in
  let f := <["i"%char := getitem f "I"%char]> f in
  let f := <["z"%char := getitem f "Z"%char]> f in
  let f := <["a"%char := getitem f "A"%char]> f in
  f.

(** [FONT.get(ch)]: [None] for a missing key, else the stored value. *)
Definition FONT_get (ch : ascii) : option (list string) := mjoin (FONT !! ch).

Definition MESSAGE : string := "Pizza!".

(** ** build_bitmap *)

(** [s * n] on strings; a count below 1 gives the empty string. *)
Fixpoint str_repeat (s : string) (n : nat) : string :=
  match n with
  | O => ""
  | S n' => s +:+ str_repeat s n'
  end.

Definition str_mul (s : string) (n : Z) : string := str_repeat s (Z.to_nat n).

(** [l[i]] for an index produced by [range]. *)
Definition index {A} (l : list A) (i : nat) : result A :=
  match l !! i with
  | Some x => Ok x
  | None => Raise IndexError
  end.

(** [rows[r] += s] *)
Definition iadd_row (rows : list string) (r : nat) (s : string)
  : result (list string) :=
  old ← index rows r; Ok (<[r := old +:+ s]> rows).

(** The body of [for ch in message], on the loop state [(rows, first)]. *)
Definition build_bitmap_body (gap : Z) (st : list string * bool) (ch : ascii)
  : result (list string * bool) :=
  let '(rows, first) := st in
  rows ← (if negb first
          then for_each (range 7)
                 (fun rows r => iadd_row rows r (str_mul "0" gap)) rows
          else Ok rows);
  match FONT_get ch with
  | None => Raise (ValueError (NoFontPattern ch))
  | Some pattern =>
      rows ← for_each (range 7)
               (fun rows r => s ← index pattern r; iadd_row rows r s) rows;
      Ok (rows, false)
  end.

Definition build_bitmap (message : string) (gap : Z) : result (list string) :=
  '(rows, _) ← for_each (list_ascii_of_string message) (build_bitmap_body gap)
                 (replicate 7 "", true);
  Ok rows.

(** ** Week alignment and the pixel dates *)

Definition get_sunday_of_week (d : date) : result date :=
  let days_to_subtract := (weekday d + 1) mod 7 in
  sub d (days days_to_subtract).

(** [sunday_for] is a conditional expression [X if False else Y]: [X]
    subtracts [weekday() + 1 if weekday() != 6 else 0] days, [Y] subtracts
    [weekday() + 1] days. No function calls it. *)
Definition sunday_for (d : date) : result date :=
  if false
  then sub d (days (if bool_decide (weekday d ≠ 6) then weekday d + 1 else 0))
  else sub d (days (weekday d + 1)).

(** [s[i]] on a string, for an index produced by [range]. *)
Definition str_index (s : string) (i : nat) : result ascii :=
  match String.get i s with
  | Some ch => Ok ch
  | None => Raise IndexError
  end.

(** The body of [for row in range(7)] in [main]. *)
Definition pixel_dates_row (bitmap : list string) (col : nat) (week_start : date)
    (commits_to_make : list date) (row : nat) : result (list date) :=
  line ← index bitmap row;
  ch ← str_index line col;
  let pixel_on := bool_decide (ch = "1"%char) in
  if pixel_on then
    pixel_date ← add week_start (days (Z.of_nat row));
    Ok (commits_to_make ++ [pixel_date])
  else Ok commits_to_make.

(** The body of [for col in range(total_cols)] in [main]. *)
Definition pixel_dates_col (bitmap : list string) (start_sunday : date)
    (commits_to_make : list date) (col : nat) : result (list date) :=
  week_start ← add start_sunday (weeks (Z.of_nat col));
  for_each (range 7) (pixel_dates_row bitmap col week_start) commits_to_make.

(** The loop of [main] that fills [commits_to_make]. *)
Definition pixel_dates (bitmap : list string) (total_cols : nat)
    (start_sunday : date) : result (list date) :=
  for_each (range total_cols) (pixel_dates_col bitmap start_sunday) [].

(** [start_sunday] as [main] computes it before it looks at the override,
    with [current_week_sunday]. *)
Definition default_start (today : date) (total_cols : nat)
  : result (date * date) :=
  current_week_sunday ← get_sunday_of_week today;
  start_sunday ← sub current_week_sunday (weeks (Z.of_nat total_cols - 1));
  Ok (current_week_sunday, start_sunday).

(** ** Effects: the trace of a run *)

Inductive event :=
  | Stdout (t : text)
  | Stderr (t : text)
  | GitRevParse                             (* git rev-parse --is-inside-work-tree *)
  | Prompt                                  (* input("Proceed ...") *)
  | GitCommit (dt : date) (part total : Z). (* git commit --allow-empty, dated dt *)

(** A computation of [main]: the events so far, and a value or the
    exception that ended the run. *)
Definition prog (A : Type) : Type := list event * result A.

Definition pbind {A B} (k : A -> prog B) (p : prog A) : prog B :=
  match p with
  | (t, Ok a) => let '(t', r) := k a in (t ++ t', r)
  | (t, Raise e) => (t, Raise e)
  end.

#[global] Instance prog_ret : MRet prog := fun A a => ([], Ok a).
#[global] Instance prog_bind : MBind prog := @pbind.

Definition emit (e : event) : prog unit := ([e], Ok tt).
Definition lift {A} (r : result A) : prog A := ([], r).
Definition print (t : text) : prog unit := emit (Stdout t).
Definition eprint (t : text) : prog unit := emit (Stderr t).
Definition sys_exit {A} (code : Z) : prog A := ([], Raise (SystemExit code)).

(** [for x in xs: body(x)], stopping at the first exception. *)
Fixpoint for_ {A} (xs : list A) (body : A -> prog unit) : prog unit :=
  match xs with
  | [] => mret tt
  | x :: xs' => body x ≫= fun _ => for_ xs' body
  end.

(** The command line, as [parse_args] returns it. *)
Record args := Args {
  commits_per_pixel : Z;
  start_sunday : option string;   (* None when the option is absent *)
  dry_run : bool
}.

(** What a run reads from its surroundings. *)
Record env := Env {
  in_work_tree : bool;            (* does git rev-parse succeed *)
  today : date;                   (* datetime.date.today() *)
  confirm : string;               (* the line typed at the prompt *)
  commit_ok : date -> Z -> bool   (* does git commit succeed for (date, part) *)
}.

Definition ensure_git_repo (w : env) : prog unit :=
  _ ← emit GitRevParse;
  if in_work_tree w then mret tt
  else _ ← eprint ErrNotGitRepo; sys_exit 1.

Definition make_commit_for_date (w : env) (dt : date) (part total : Z)
  : prog unit :=
  _ ← emit (GitCommit dt part total);
  if commit_ok w dt part then mret tt
  else _ ← eprint (ErrCommitFailed dt); sys_exit 1.

(** [c.lower()] on one character, and [s.lower()]. *)
Definition ascii_lower (c : ascii) : ascii :=
  let n := nat_of_ascii c in
  if (65 <=? n)%nat && (n <=? 90)%nat then ascii_of_nat (n + 32) else c.

Fixpoint lower (s : string) : string :=
  match s with
  | EmptyString => EmptyString
  | String c s' => String (ascii_lower c) (lower s')
  end.

Section Main.

(** [datetime.datetime.strptime(s, "%Y-%m-%d").date()]; [None] stands
    for the ValueError of a string that does not parse. *)
Variable strptime : string -> option date.

(** Lines 148-163 of [main]: the origin of the grid, with
    [current_week_sunday]. *)
Definition resolve_start (a : args) (w : env) (total_cols : nat)
  : prog (date * date) :=
  '(current_week_sunday, default) ← lift (default_start (today w) total_cols);
  match start_sunday a with
  | Some s =>
      if bool_decide (s ≠ "") then   (* [if args.start_sunday:] *)
        match strptime s with
        | Some start =>
            if bool_decide (weekday start ≠ 6) then
              _ ← print WarnNotSunday;
              start ← lift (get_sunday_of_week start);
              mret (current_week_sunday, start)
            else mret (current_week_sunday, start)
        | None => _ ← eprint ErrInvalidDate; sys_exit 1
        end
      else mret (current_week_sunday, default)
  | None => mret (current_week_sunday, default)
  end.

(** [main], with the message to draw as a parameter. *)
Definition main_with (message : string) (a : args) (w : env) : prog unit :=
  _ ← ensure_git_repo w;
  bitmap ← lift (build_bitmap message 1);
  row0 ← lift (index bitmap 0);
  let total_cols := String.length row0 in
  _ ← print (MsgBitmapWidth message total_cols);
  '(current_week_sunday, start) ← resolve_start a w total_cols;
  _ ← print (MsgStartSunday start);
  end_week ← lift (add start (weeks (Z.of_nat total_cols - 1)));
  _ ← print (MsgEndWeek end_week current_week_sunday);
  _ ← (if dry_run a then print MsgDryRunHeader else mret tt);
  commits_to_make ← lift (pixel_dates bitmap total_cols start);
  _ ← print (MsgTotals (length commits_to_make) (commits_per_pixel a)
              (Z.of_nat (length commits_to_make) * commits_per_pixel a));
  if dry_run a then
    _ ← for_ commits_to_make (fun d => print (MsgDate d));
    print MsgDoneDryRun
  else
    _ ← emit Prompt;
    if bool_decide (lower (confirm w) ≠ "y") then print MsgAborted
    else
      _ ← for_ commits_to_make (fun d =>
             for_ (range (Z.to_nat (commits_per_pixel a))) (fun i =>
               make_commit_for_date w d (Z.of_nat i + 1) (commits_per_pixel a)));
      print MsgAllCreated.

Definition main : args -> env -> prog unit := main_with MESSAGE.

End Main.

(** * Specification-side definitions *)

(** ** The layout of a bitmap *)

(** A character with an entry in the font table. *)
Definition supported (ch : ascii) : Prop := is_Some (FONT !! ch).

(** Row [r] of the pattern of [ch]. *)
Definition glyph_row (ch : ascii) (r : nat) : string :=
  default "" (FONT_get ch ≫= (.!! r)).

(** [sep.join(parts)]: the parts left to right, [sep] between neighbours. *)
Fixpoint join (sep : string) (parts : list string) : string :=
  match parts with
  | [] => ""
  | p :: ps => match ps with [] => p | _ => p +:+ sep +:+ join sep ps end
  end.

(** The bitmap the specification asks for: row [r] joins the rows [r] of
    the characters' patterns with [gap] blank columns. *)
Definition layout (message : list ascii) (gap : Z) : list string :=
  (fun r => join (str_mul "0" gap) ((fun ch => glyph_row ch r) <$> message))
    <$> seq 0 7.

(** A table value that is a pattern of seven rows of five columns. *)
Definition glyph_ok (v : option (list string)) : bool :=
  match v with
  | Some pattern =>
      bool_decide (length pattern = 7%nat) &&
      forallb (fun s => bool_decide (String.length s = 5%nat)) pattern
  | None => false
  end.

#[global] Instance supported_dec ch : Decision (supported ch).
Proof. unfold supported. apply _. Defined.

(** ** The cells of the grid and their dates *)

(** The cell (row, column) exists and holds a "1". *)
Definition on_cell (bitmap : list string) (cell : nat * nat) : Prop :=
  bitmap !! cell.1 ≫= String.get cell.2 = Some "1"%char.

#[global] Instance on_cell_dec bitmap cell : Decision (on_cell bitmap cell).
Proof. unfold on_cell. apply _. Defined.

(** origin + column weeks + row days. *)
Definition cell_date (origin : date) (cell : nat * nat) : date :=
  Date (toordinal origin + 7 * Z.of_nat cell.2 + Z.of_nat cell.1).

(** The on cells of one column, top to bottom. *)
Definition column_cells (bitmap : list string) (col : nat) : list (nat * nat) :=
  (fun row => (row, col))
    <$> filter (fun row => on_cell bitmap (row, col)) (seq 0 7).

(** The on cells of the first [W] columns, column by column. *)
Definition on_cells (bitmap : list string) (W : nat) : list (nat * nat) :=
  seq 0 W ≫= column_cells bitmap.

(** The dates the specification asks for, in that order. *)
Definition planned (bitmap : list string) (W : nat) (origin : date) : list date :=
  cell_date origin <$> on_cells bitmap W.

(** Column-major order on cells: by column, then by row. *)
Definition column_major_lt (x y : nat * nat) : Prop :=
  (x.2 < y.2 \/ x.2 = y.2 /\ x.1 < y.1)%nat.

(** A bitmap of seven rows of [W] columns. *)
Definition grid (bitmap : list string) (W : nat) : Prop :=
  length bitmap = 7%nat /\ Forall (fun row => String.length row = W) bitmap.

(** Every day of the [W] weeks from [origin] on is a [datetime.date]. *)
Definition representable (origin : date) (W : nat) : Prop :=
  0 < toordinal origin /\ toordinal origin + 7 * Z.of_nat W - 1 <= MAXORDINAL.

(** ** Variants of a message, and runs *)

(** Two characters that are equal, or the two cases of one of P, I, Z, A. *)
Definition case_variant (a b : ascii) : Prop :=
  a = b \/
  (a, b) ∈ [("P", "p"); ("p", "P"); ("I", "i"); ("i", "I");
            ("Z", "z"); ("z", "Z"); ("A", "a"); ("a", "A")]%char.

(** A trace that asks git for no commit. *)
Definition no_commit (t : list event) : Prop :=
  forall dt part total, GitCommit dt part total ∉ t.

(** A run that ended in an exception. *)
Definition fatal {A} (r : result A) : Prop := exists e, r = Raise e.

(** One reader of [YYYY-MM-DD] to run [main] with: four, two and two
    decimal digits naming a day of the calendar. [strptime] reads every such
    string to the same date. *)
Definition digit (c : ascii) : option Z :=
  let n := Z.of_nat (nat_of_ascii c) in
  if (48 <=? n) && (n <=? 57) then Some (n - 48) else None.

Definition read_iso_date (s : string) : option date :=
  match list_ascii_of_string s with
  | [y1; y2; y3; y4; sep1; m1; m2; sep2; d1; d2] =>
      if bool_decide (sep1 = "-"%char /\ sep2 = "-"%char) then
        y1 ← digit y1; y2 ← digit y2; y3 ← digit y3; y4 ← digit y4;
        m1 ← digit m1; m2 ← digit m2; d1 ← digit d1; d2 ← digit d2;
        mkdate (1000 * y1 + 100 * y2 + 10 * y3 + y4) (10 * m1 + m2) (10 * d1 + d2)
      else None
  | _ => None
  end.

(** The bitmap of the one-letter message "A". *)
Definition bitmap_A : list string :=
  ["01110"; "10001"; "10001"; "11111"; "10001"; "10001"; "10001"].

(** ** Further vocabulary *)

(** A string of the characters "0" and "1" only. *)
Definition binary (s : string) : Prop :=
  Forall (fun ch => ch = "0"%char \/ ch = "1"%char) (list_ascii_of_string s).

(** A value of the font table that is a pattern: seven rows of five
    characters "0" or "1". *)
Definition pattern_wf (v : option (list string)) : Prop :=
  match v with
  | Some pattern =>
      length pattern = 7%nat /\
      Forall (fun row => String.length row = 5%nat /\ binary row) pattern
  | None => False
  end.

#[global] Instance pattern_wf_dec v : Decision (pattern_wf v).
Proof. destruct v; unfold pattern_wf, binary; apply _. Defined.

(** The keys of the font table. *)
Definition FONT_keys : list ascii :=
  ["P"; "I"; "Z"; "A"; "!"; "p"; "i"; "z"; "a"]%char.

(** The cells of column [col], rows 0 to 6, all exist. *)
Definition column_exists (bitmap : list string) (col : nat) : Prop :=
  Forall (fun row => is_Some (bitmap !! row ≫= String.get col)) (seq 0 7).

#[global] Instance column_exists_dec bitmap col : Decision (column_exists bitmap col).
Proof. unfold column_exists. apply _. Defined.

(** The commits of a full run: for each date in turn, parts 1 to [n]. *)
Definition commit_plan (ds : list date) (n : Z) : list (date * Z) :=
  ds ≫= fun d => (fun i => (d, Z.of_nat i + 1)) <$> seq 0 (Z.to_nat n).

(** What [main] prints before it asks for confirmation, in a run that is
    not a preview. *)
Definition run_header (message : string) (a : args) (W : nat)
    (t : list event) (cws start : date) (pixels : nat) : list event :=
  [GitRevParse; Stdout (MsgBitmapWidth message W)] ++ t ++
  [Stdout (MsgStartSunday start);
   Stdout (MsgEndWeek (Date (toordinal start + 7 * (Z.of_nat W - 1))) cws);
   Stdout (MsgTotals pixels (commits_per_pixel a)
             (Z.of_nat pixels * commits_per_pixel a))].

(** What a run may do only with the user's consent: commit, and only in a
    repository, outside preview mode, after a "y" or "Y" at the prompt, with
    part numbers from 1 to the number of commits per pixel; and prompt, only
    in a repository and outside preview mode. *)
Definition consented (a : args) (w : env) (e : event) : Prop :=
  match e with
  | GitCommit dt part total =>
      in_work_tree w = true /\ dry_run a = false /\
      (confirm w = "y" \/ confirm w = "Y") /\
      1 <= part <= commits_per_pixel a /\ total = commits_per_pixel a
  | Prompt => in_work_tree w = true /\ dry_run a = false
  | _ => True
  end.

(** The bitmap of the one-character message "!". *)
Definition bitmap_bang : list string :=
  ["00100"; "00100"; "00100"; "00100"; "00100"; "00000"; "00100"].

(** The number of "1" characters of a string. *)
Definition count_ones (s : string) : nat :=
  length (filter (fun ch => ch = "1"%char) (list_ascii_of_string s)).

(** The number of "1"s in the pattern of a character (0 without pattern). *)
Definition glyph_pixels (ch : ascii) : nat :=
  sum_list_with count_ones (default [] (FONT_get ch)).

(** * Lemmas *)

(** Unfolds one step of a run of [main]. *)
Ltac run_step :=
  cbn [lift emit print eprint sys_exit mbind mret prog_bind prog_ret pbind
       app fst snd].

(** Closes [no_commit] on an explicit trace. *)
Ltac solve_no_commit :=
  let H := fresh in
  intros ? ? ? H; cbn in H;
  rewrite ?elem_of_cons, ?elem_of_nil in H;
  repeat (destruct H as [H|H]; try discriminate H); exact H.

(** ** The font table and strings *)

(** The four keys read while the module is loaded are keys of the literal,
    so none of the reads raises KeyError. *)
Lemma FONT_literal_keys :
  Forall (fun k => is_Some (FONT_literal !! k)) ["P"; "I"; "Z"; "A"]%char.
Proof. repeat constructor; apply (bool_decide_unpack _); vm_compute; exact I. Qed.

Lemma FONT_glyphs_ok : map_Forall (fun _ v => glyph_ok v = true) FONT.
Proof. apply (bool_decide_unpack _). vm_compute. exact I. Qed.

Lemma FONT_get_Some ch v : FONT !! ch = Some v -> exists pattern,
  v = Some pattern /\ FONT_get ch = Some pattern /\ length pattern = 7%nat /\
  Forall (fun s => String.length s = 5%nat) pattern.
Proof.
  intros H. pose proof (FONT_glyphs_ok ch v H) as Hok.
  destruct v as [pattern|]; [|discriminate].
  exists pattern. unfold FONT_get. rewrite H. simpl in *.
  apply andb_prop in Hok as [Hl Hf]. apply bool_decide_eq_true in Hl.
  repeat split; auto. apply Forall_forall. intros s Hs.
  rewrite forallb_forall in Hf. apply list_elem_of_In in Hs.
  apply Hf in Hs. by apply bool_decide_eq_true in Hs.
Qed.

Lemma supported_FONT_get ch : supported ch <-> is_Some (FONT_get ch).
Proof.
  unfold supported. split.
  - intros [v Hv]. destruct (FONT_get_Some _ _ Hv) as (p & _ & -> & _). eauto.
  - intros [p Hp]. unfold FONT_get in Hp. destruct (FONT !! ch); [eauto|discriminate].
Qed.

Lemma FONT_get_shape ch pattern : FONT_get ch = Some pattern ->
  length pattern = 7%nat /\ Forall (fun s => String.length s = 5%nat) pattern.
Proof.
  unfold FONT_get. destruct (FONT !! ch) as [v|] eqn:E; [|discriminate].
  destruct (FONT_get_Some _ _ E) as (p & -> & _ & H1 & H2). simpl. by intros [= <-].
Qed.

Lemma str_app_nil_l (b : string) : "" +:+ b = b.
Proof. reflexivity. Qed.

Lemma str_app_cons x (a b : string) : String x a +:+ b = String x (a +:+ b).
Proof. reflexivity. Qed.

Lemma str_app_assoc (a b c : string) : (a +:+ b) +:+ c = a +:+ b +:+ c.
Proof.
  induction a as [|x a IH]; [done|]. by rewrite !str_app_cons, IH.
Qed.

Lemma str_length_app (a b : string) :
  String.length (a +:+ b) = (String.length a + String.length b)%nat.
Proof.
  induction a as [|x a IH]; [done|]. rewrite str_app_cons. simpl. by rewrite IH.
Qed.

Lemma join_snoc sep parts p : parts <> [] ->
  join sep (parts ++ [p]) = join sep parts +:+ sep +:+ p.
Proof.
  induction parts as [|a [|b t] IH]; intros Hne; [done | done |].
  change (join sep ((a :: b :: t) ++ [p]))
    with (a +:+ sep +:+ join sep ((b :: t) ++ [p])).
  rewrite IH by done.
  change (join sep (a :: b :: t)) with (a +:+ sep +:+ join sep (b :: t)).
  by rewrite !str_app_assoc.
Qed.

Lemma for_each_app {S A} (xs ys : list A) (body : S -> A -> result S) s :
  for_each (xs ++ ys) body s = for_each xs body s ≫= for_each ys body.
Proof.
  revert s. induction xs as [|x xs IH]; intros s; simpl; [done|].
  destruct (body s x); simpl; [apply IH | done].
Qed.

Lemma build_bitmap_body_layout gap done ch pattern :
  FONT_get ch = Some pattern ->
  build_bitmap_body gap (layout done gap, bool_decide (done = [])) ch
  = Ok (layout (done ++ [ch]) gap, false).
Proof.
  intros Hch. destruct (FONT_get_shape _ _ Hch) as [Hlen _].
  destruct pattern as [|p0 [|p1 [|p2 [|p3 [|p4 [|p5 [|p6 [|]]]]]]]]; try discriminate.
  unfold build_bitmap_body. rewrite Hch.
  assert (Hrow : forall r, glyph_row ch r = default "" ([p0;p1;p2;p3;p4;p5;p6] !! r)).
  { intros r. unfold glyph_row. by rewrite Hch. }
  unfold layout. case_bool_decide as Hd.
  - subst done. cbn. rewrite !Hrow, !str_app_nil_l. reflexivity.
  - cbn. rewrite !fmap_app. cbn. rewrite !join_snoc.
    2-8: by destruct done.
    rewrite !Hrow. cbn. rewrite !str_app_assoc. reflexivity.
Qed.

Lemma layout_nil gap : layout [] gap = replicate 7 "".
Proof. reflexivity. Qed.

Lemma build_loop_layout gap done :
  Forall (fun ch => is_Some (FONT_get ch)) done ->
  for_each done (build_bitmap_body gap) (replicate 7 "", true)
  = Ok (layout done gap, bool_decide (done = [])).
Proof.
  induction done as [|ch done IH] using rev_ind; intros Hall.
  - reflexivity.
  - apply Forall_app in Hall as [Hdone Hch].
    apply Forall_singleton in Hch as [pattern Hch].
    rewrite for_each_app, (IH Hdone). cbn [mbind result_bind rbind for_each].
    rewrite (build_bitmap_body_layout _ _ _ _ Hch). cbn.
    rewrite bool_decide_eq_false_2; [done | by destruct done].
Qed.

Lemma build_bitmap_body_unsupported gap done ch :
  FONT_get ch = None ->
  build_bitmap_body gap (layout done gap, bool_decide (done = [])) ch
  = Raise (ValueError (NoFontPattern ch)).
Proof.
  intros Hch. unfold build_bitmap_body. rewrite Hch.
  case_bool_decide; reflexivity.
Qed.

Lemma build_bitmap_ok message gap :
  Forall supported (list_ascii_of_string message) ->
  build_bitmap message gap = Ok (layout (list_ascii_of_string message) gap).
Proof.
  intros Hall. unfold build_bitmap. rewrite build_loop_layout; [done|].
  eapply Forall_impl; [exact Hall|]. intros ch. apply supported_FONT_get.
Qed.

Lemma build_bitmap_first_unsupported message gap pre ch post :
  list_ascii_of_string message = pre ++ ch :: post ->
  Forall supported pre -> ~ supported ch ->
  build_bitmap message gap = Raise (ValueError (NoFontPattern ch)).
Proof.
  intros Hsplit Hpre Hch. unfold build_bitmap. rewrite Hsplit, for_each_app.
  rewrite build_loop_layout.
  2:{ eapply Forall_impl; [exact Hpre|]. intros c. apply supported_FONT_get. }
  cbn [mbind result_bind rbind for_each].
  rewrite build_bitmap_body_unsupported; [done|].
  rewrite supported_FONT_get in Hch. destruct (FONT_get ch); [|done].
  exfalso. eauto.
Qed.

Lemma first_unsupported (l : list ascii) :
  Forall supported l \/
  exists pre ch post, l = pre ++ ch :: post /\ Forall supported pre /\ ~ supported ch.
Proof.
  induction l as [|c l IH]; [left; constructor|].
  destruct (decide (supported c)) as [Hc|Hc].
  - destruct IH as [IH|(pre & ch & post & -> & Hpre & Hch)].
    + left. by constructor.
    + right. exists (c :: pre), ch, post. repeat split; [by constructor | done].
  - right. exists [], c, l. repeat split; [constructor | done].
Qed.

Lemma not_supported_lookup ch : ~ supported ch <-> FONT !! ch = None.
Proof. unfold supported. rewrite <- eq_None_not_Some. done. Qed.

Lemma length_list_ascii_of_string s :
  length (list_ascii_of_string s) = String.length s.
Proof. induction s as [|c s IH]; simpl; [done | by rewrite IH]. Qed.

Lemma join_length sep parts :
  parts <> [] -> Forall (fun s => String.length s = 5%nat) parts ->
  Z.of_nat (String.length (join sep parts))
  = 5 * Z.of_nat (length parts)
    + Z.of_nat (String.length sep) * (Z.of_nat (length parts) - 1).
Proof.
  induction parts as [|a [|b t] IH]; intros Hne Hall; [done | |].
  - rewrite Forall_singleton in Hall. cbn [join length]. rewrite Hall. lia.
  - rewrite Forall_cons in Hall. destruct Hall as [Ha Hall].
    change (join sep (a :: b :: t)) with (a +:+ sep +:+ join sep (b :: t)).
    cbv beta in Ha. rewrite !str_length_app, !Nat2Z.inj_add, IH, Ha by done.
    cbn [length] in *. lia.
Qed.

Lemma glyph_row_length ch r :
  supported ch -> (r < 7)%nat -> String.length (glyph_row ch r) = 5%nat.
Proof.
  intros Hs Hr. apply supported_FONT_get in Hs as [pattern Hp].
  unfold glyph_row. rewrite Hp. simpl.
  destruct (FONT_get_shape _ _ Hp) as [Hlen Hall].
  destruct (lookup_lt_is_Some_2 pattern r) as [s Hs]; [lia|].
  rewrite Hs. simpl. eapply Forall_lookup_1 in Hall; eauto.
Qed.

Lemma layout_lookup message gap r row :
  layout message gap !! r = Some row <->
  (r < 7)%nat /\
  row = join (str_mul "0" gap) ((fun ch => glyph_row ch r) <$> message).
Proof.
  unfold layout. rewrite list_lookup_fmap.
  destruct (decide (r < 7)%nat) as [Hr|Hr].
  - rewrite lookup_seq_lt by done. simpl. split.
    + by intros [= <-].
    + by intros [_ ->].
  - rewrite lookup_seq_ge by lia. simpl. split; [done | by intros [? _]].
Qed.

(** ** Date arithmetic and the pixel loop *)

Lemma add_Ok d k d' :
  add d k = Ok d' <-> valid_ordinal (toordinal d + k) /\ d' = Date (toordinal d + k).
Proof.
  unfold add, valid_ordinal.
  destruct (0 <? toordinal d + k) eqn:E1; destruct (toordinal d + k <=? MAXORDINAL) eqn:E2;
    simpl; split; try discriminate.
  all: try (intros [= <-]; split; [lia | done]).
  all: try (intros [? ->]; first [done | lia]).
Qed.

Lemma add_valid d k :
  valid_ordinal (toordinal d + k) -> add d k = Ok (Date (toordinal d + k)).
Proof. intros H. by apply add_Ok. Qed.

Lemma pixel_dates_row_on bitmap col wk acc row :
  on_cell bitmap (row, col) ->
  pixel_dates_row bitmap col wk acc row
  = add wk (days (Z.of_nat row)) ≫= fun d => Ok (acc ++ [d]).
Proof.
  unfold on_cell, pixel_dates_row, index, str_index. simpl.
  destruct (bitmap !! row) as [line|]; simpl; [|done].
  destruct (String.get col line) as [ch|]; simpl; [|done].
  intros [= ->]. done.
Qed.

Lemma pixel_dates_row_off bitmap col wk acc row acc' :
  ~ on_cell bitmap (row, col) ->
  pixel_dates_row bitmap col wk acc row = Ok acc' -> acc' = acc.
Proof.
  unfold on_cell, pixel_dates_row, index, str_index. simpl.
  destruct (bitmap !! row) as [line|]; simpl; [|done].
  destruct (String.get col line) as [ch|]; simpl; [|done].
  intros Hoff. case_bool_decide; [by subst|]. by intros [= <-].
Qed.

Lemma pixel_dates_row_off_Ok bitmap col wk acc row :
  ~ on_cell bitmap (row, col) ->
  is_Some (bitmap !! row ≫= String.get col) ->
  pixel_dates_row bitmap col wk acc row = Ok acc.
Proof.
  unfold on_cell, pixel_dates_row, index, str_index. simpl.
  destruct (bitmap !! row) as [line|]; simpl; [|by intros ? [? ?]].
  destruct (String.get col line) as [ch|]; simpl; [|by intros ? [? ?]].
  intros Hoff _. case_bool_decide; [by subst|done].
Qed.

Lemma rows_loop_sound bitmap col wk rs acc acc' :
  for_each rs (pixel_dates_row bitmap col wk) acc = Ok acc' ->
  acc' = acc ++ ((fun row => Date (toordinal wk + Z.of_nat row))
                   <$> filter (fun row => on_cell bitmap (row, col)) rs).
Proof.
  revert acc. induction rs as [|row rs IH]; intros acc; cbn [for_each].
  - intros [= <-]. by rewrite app_nil_r.
  - destruct (decide (on_cell bitmap (row, col))) as [Hon|Hoff].
    + rewrite pixel_dates_row_on by done.
      destruct (add wk (days (Z.of_nat row))) as [d|] eqn:Hadd; [|done].
      apply add_Ok in Hadd as [_ ->]. cbn [mbind result_bind rbind]. intros H%IH.
      rewrite filter_cons_True by done. by rewrite H, <- app_assoc.
    + destruct (pixel_dates_row bitmap col wk acc row) as [acc1|] eqn:Hrow; [|done].
      apply pixel_dates_row_off in Hrow as ->; [|done]. cbn [mbind result_bind rbind]. intros H%IH.
      by rewrite filter_cons_False.
Qed.

Lemma rows_loop_total bitmap col wk rs acc :
  Forall (fun row => is_Some (bitmap !! row ≫= String.get col) /\
                     valid_ordinal (toordinal wk + Z.of_nat row)) rs ->
  for_each rs (pixel_dates_row bitmap col wk) acc
  = Ok (acc ++ ((fun row => Date (toordinal wk + Z.of_nat row))
                  <$> filter (fun row => on_cell bitmap (row, col)) rs)).
Proof.
  revert acc. induction rs as [|row rs IH]; intros acc Hall; cbn [for_each].
  - by rewrite app_nil_r.
  - rewrite Forall_cons in Hall. destruct Hall as [[Hcell Hvalid] Hall].
    destruct (decide (on_cell bitmap (row, col))) as [Hon|Hoff].
    + rewrite pixel_dates_row_on by done. unfold days. rewrite add_valid by done.
      cbn [mbind result_bind rbind]. rewrite IH by done. rewrite filter_cons_True by done.
      by rewrite <- app_assoc.
    + rewrite pixel_dates_row_off_Ok by done. cbn [mbind result_bind rbind]. rewrite IH by done.
      by rewrite filter_cons_False.
Qed.

Lemma column_dates_eq bitmap origin col :
  (fun row => Date (toordinal origin + weeks (Z.of_nat col) + Z.of_nat row))
    <$> filter (fun row => on_cell bitmap (row, col)) (seq 0 7)
  = cell_date origin <$> column_cells bitmap col.
Proof. unfold column_cells. by rewrite <- list_fmap_compose. Qed.

Lemma pixel_dates_col_sound bitmap origin acc col acc' :
  pixel_dates_col bitmap origin acc col = Ok acc' ->
  acc' = acc ++ (cell_date origin <$> column_cells bitmap col).
Proof.
  unfold pixel_dates_col.
  destruct (add origin (weeks (Z.of_nat col))) as [wk|] eqn:Hadd; [|done].
  apply add_Ok in Hadd as [_ ->]. cbn [mbind result_bind rbind]. unfold range. intros H%rows_loop_sound. cbn [toordinal] in H.
  by rewrite <- column_dates_eq.
Qed.

Lemma pixel_dates_col_total bitmap origin acc col :
  (forall row, (row < 7)%nat -> is_Some (bitmap !! row ≫= String.get col)) ->
  0 < toordinal origin + 7 * Z.of_nat col ->
  toordinal origin + 7 * Z.of_nat col + 6 <= MAXORDINAL ->
  pixel_dates_col bitmap origin acc col
  = Ok (acc ++ (cell_date origin <$> column_cells bitmap col)).
Proof.
  intros Hcells Hlo Hhi. unfold pixel_dates_col.
  rewrite add_valid by (unfold valid_ordinal, weeks; lia).
  cbn [mbind result_bind rbind]. unfold range. rewrite rows_loop_total.
  - by rewrite <- column_dates_eq.
  - apply Forall_forall. intros row Hrow%elem_of_seq. split.
    + apply Hcells. lia.
    + unfold valid_ordinal, weeks. cbn [toordinal]. lia.
Qed.

Lemma on_cells_S bitmap n :
  on_cells bitmap (S n) = on_cells bitmap n ++ column_cells bitmap n.
Proof.
  unfold on_cells. rewrite seq_S, bind_app. cbn [Nat.add mbind list_bind]. by rewrite app_nil_r.
Qed.

Lemma planned_S bitmap n origin :
  planned bitmap (S n) origin
  = planned bitmap n origin ++ (cell_date origin <$> column_cells bitmap n).
Proof. unfold planned. by rewrite on_cells_S, fmap_app. Qed.

Lemma pixel_dates_sound bitmap W origin ds :
  pixel_dates bitmap W origin = Ok ds -> ds = planned bitmap W origin.
Proof.
  unfold pixel_dates, range. revert ds.
  induction W as [|n IH]; intros ds.
  - by intros [= <-].
  - rewrite seq_S, for_each_app.
    destruct (for_each (seq 0 n) _ []) as [acc|]; [|done].
    cbn [mbind result_bind rbind for_each Nat.add]. destruct (pixel_dates_col bitmap origin acc n) as [acc'|] eqn:Hcol; [|done].
    cbn [mbind result_bind rbind]. intros [= <-]. apply pixel_dates_col_sound in Hcol as ->.
    by rewrite planned_S, (IH acc).
Qed.

Lemma str_get_lt (s : string) (i : nat) :
  (i < String.length s)%nat -> is_Some (String.get i s).
Proof.
  revert i. induction s as [|c s IH]; intros i Hi; simpl in Hi; [lia|].
  destruct i as [|i]; simpl; [eauto | apply IH; lia].
Qed.

Lemma grid_cell bitmap W row col :
  grid bitmap W -> (row < 7)%nat -> (col < W)%nat ->
  is_Some (bitmap !! row ≫= String.get col).
Proof.
  intros [Hlen Hrows] Hrow Hcol.
  destruct (lookup_lt_is_Some_2 bitmap row) as [line Hline]; [lia|].
  rewrite Hline. cbn [mbind option_bind].
  eapply Forall_lookup_1 in Hrows; [|done]. cbv beta in Hrows.
  apply str_get_lt. lia.
Qed.

Lemma pixel_dates_total bitmap W origin :
  grid bitmap W -> representable origin W ->
  pixel_dates bitmap W origin = Ok (planned bitmap W origin).
Proof.
  intros Hgrid [Hlo Hhi]. unfold pixel_dates, range.
  assert (Hpre : forall n, (n <= W)%nat ->
    for_each (seq 0 n) (pixel_dates_col bitmap origin) []
    = Ok (planned bitmap n origin)).
  { induction n as [|n IH]; intros Hn; [done|].
    rewrite seq_S, for_each_app, IH by lia.
    cbn [mbind result_bind rbind for_each Nat.add].
    rewrite pixel_dates_col_total.
    - by rewrite planned_S.
    - intros row Hrow. eapply grid_cell; [done | done | lia].
    - lia.
    - lia. }
  by apply Hpre.
Qed.

(** ** Membership and order of the planned dates *)
Lemma elem_of_column_cells bitmap col cell :
  cell ∈ column_cells bitmap col <->
  (cell.1 < 7)%nat /\ cell.2 = col /\ on_cell bitmap cell.
Proof.
  unfold column_cells. rewrite list_elem_of_fmap. split.
  - intros (row & -> & [Hon Hrow%elem_of_seq]%list_elem_of_filter).
    cbn [fst snd]. repeat split; [lia | done].
  - intros (Hrow & <- & Hon). exists cell.1. destruct cell as [row col]; cbn [fst snd] in *.
    split; [done|]. apply list_elem_of_filter. split; [done|].
    apply elem_of_seq. lia.
Qed.

Lemma elem_of_on_cells bitmap W cell :
  cell ∈ on_cells bitmap W <->
  (cell.1 < 7)%nat /\ (cell.2 < W)%nat /\ on_cell bitmap cell.
Proof.
  unfold on_cells. rewrite list_elem_of_bind. split.
  - intros (col & (Hrow & <- & Hon)%elem_of_column_cells & Hcol%elem_of_seq).
    repeat split; [done | lia | done].
  - intros (Hrow & Hcol & Hon). exists cell.2. split.
    + by apply elem_of_column_cells.
    + apply elem_of_seq. lia.
Qed.

Lemma StronglySorted_filter {A} (R : relation A) (P : A -> Prop)
    `{!forall x, Decision (P x)} (l : list A) :
  StronglySorted R l -> StronglySorted R (filter P l).
Proof.
  induction 1 as [|x l Hl IH Hx]; [constructor|].
  destruct (decide (P x)).
  - rewrite filter_cons_True by done. constructor; [done|].
    apply Forall_forall. intros y [_ Hy]%list_elem_of_filter.
    rewrite Forall_forall in Hx. auto.
  - by rewrite filter_cons_False.
Qed.

Lemma StronglySorted_seq j n : StronglySorted Nat.lt (seq j n).
Proof.
  revert j. induction n as [|n IH]; intros j; cbn; constructor; [apply IH|].
  apply Forall_forall. intros k Hk%elem_of_seq. unfold Nat.lt. lia.
Qed.

Lemma column_cells_sorted bitmap col :
  StronglySorted column_major_lt (column_cells bitmap col).
Proof.
  unfold column_cells.
  apply (StronglySorted_fmap _ Nat.lt).
  - intros x y Hxy. right. cbn. split; [done|]. apply Hxy.
  - apply StronglySorted_filter, StronglySorted_seq.
Qed.

Lemma on_cells_sorted bitmap W :
  StronglySorted column_major_lt (on_cells bitmap W).
Proof.
  induction W as [|n IH]; [constructor|].
  rewrite on_cells_S. apply StronglySorted_app_2.
  - intros x y (_ & Hx & _)%elem_of_on_cells (_ & Hy & _)%elem_of_column_cells.
    left. lia.
  - done.
  - apply column_cells_sorted.
Qed.

Lemma cell_date_mono origin x y :
  (x.1 < 7)%nat -> column_major_lt x y ->
  lt (cell_date origin x) (cell_date origin y).
Proof. unfold column_major_lt, lt, cell_date. cbn. lia. Qed.

Lemma StronglySorted_fmap_elem_of {A B} (f : A -> B) (R1 : relation A)
    (R2 : relation B) (l : list A) :
  (forall x y, x ∈ l -> y ∈ l -> R1 x y -> R2 (f x) (f y)) ->
  StronglySorted R1 l -> StronglySorted R2 (f <$> l).
Proof.
  intros Hf Hl. induction Hl as [|x l Hl IH Hx]; [constructor|].
  rewrite fmap_cons. constructor.
  - apply IH. intros y z Hy Hz. apply Hf; by constructor.
  - apply Forall_fmap, Forall_forall. intros y Hy. cbn.
    rewrite Forall_forall in Hx. apply Hf; [constructor | by constructor | auto].
Qed.

Lemma planned_sorted bitmap W origin :
  StronglySorted lt (planned bitmap W origin).
Proof.
  unfold planned. eapply StronglySorted_fmap_elem_of; [|apply on_cells_sorted].
  intros x y (Hx & _)%elem_of_on_cells _. by apply cell_date_mono.
Qed.

Lemma StronglySorted_irrefl_NoDup {A} (R : relation A) (l : list A) :
  (forall x, ~ R x x) -> StronglySorted R l -> NoDup l.
Proof.
  intros Hirr. induction 1 as [|x l Hl IH Hx]; constructor; [|done].
  intros Hin. rewrite Forall_forall in Hx. by apply (Hirr x), Hx.
Qed.

Lemma elem_of_planned bitmap W origin (d : date) :
  d ∈ planned bitmap W origin <->
  exists row col, (row < 7)%nat /\ (col < W)%nat /\ on_cell bitmap (row, col) /\
    d = cell_date origin (row, col).
Proof.
  unfold planned. rewrite list_elem_of_fmap. split.
  - intros ([row col] & -> & (Hr & Hc & Hon)%elem_of_on_cells). eauto 10.
  - intros (row & col & Hr & Hc & Hon & ->). exists (row, col).
    split; [done|]. by apply elem_of_on_cells.
Qed.

(** ** Runs of [main] in preview mode *)

(** Rows 0 to 6 of a grid whose origin is a Sunday are Sunday (6), Monday
    (0), ..., Saturday (5). *)
Lemma cell_date_weekday origin cell :
  weekday origin = 6 ->
  weekday (cell_date origin cell) = (Z.of_nat cell.1 + 6) mod 7.
Proof.
  unfold weekday, cell_date. cbn [toordinal]. intros H.
  Z.to_euclidean_division_equations; lia.
Qed.

(** A preview run prints one line for each planned date. *)
Lemma for_print {A} (f : A -> text) (xs : list A) :
  for_ xs (fun x => print (f x)) = ((fun x => Stdout (f x)) <$> xs, Ok tt).
Proof.
  induction xs as [|x xs IH]; [done|].
  cbn [for_]. rewrite IH. reflexivity.
Qed.

(** The origin [resolve_start] returns is the one the pixel loop uses: a
    preview run inside a repository lists the dates planned from it. *)
Lemma main_with_dry_run strptime message a w bitmap row0 t cws start :
  in_work_tree w = true -> dry_run a = true ->
  build_bitmap message 1 = Ok bitmap -> index bitmap 0 = Ok row0 ->
  let W := String.length row0 in
  (0 < W)%nat -> grid bitmap W ->
  resolve_start strptime a w W = (t, Ok (cws, start)) ->
  representable start W ->
  main_with strptime message a w
  = ([GitRevParse; Stdout (MsgBitmapWidth message W)] ++ t ++
     [Stdout (MsgStartSunday start);
      Stdout (MsgEndWeek (Date (toordinal start + 7 * (Z.of_nat W - 1))) cws);
      Stdout MsgDryRunHeader;
      Stdout (MsgTotals (length (planned bitmap W start)) (commits_per_pixel a)
                (Z.of_nat (length (planned bitmap W start)) * commits_per_pixel a))]
     ++ ((fun d => Stdout (MsgDate d)) <$> planned bitmap W start)
     ++ [Stdout MsgDoneDryRun],
     Ok tt).
Proof.
  intros Hrepo Hdry Hbitmap Hrow0 W HW Hgrid Hstart Hrep.
  unfold main_with, ensure_git_repo. rewrite Hrepo, Hdry. run_step.
  rewrite Hbitmap. run_step. rewrite Hrow0. run_step. fold W. rewrite Hstart.
  run_step. unfold weeks. rewrite add_valid.
  2:{ destruct Hrep. unfold valid_ordinal. lia. }
  run_step. rewrite pixel_dates_total by done. run_step.
  rewrite for_print. run_step. reflexivity.
Qed.

(** ** The week start *)

Lemma get_sunday_of_week_Ok d s :
  get_sunday_of_week d = Ok s <->
  valid_ordinal (toordinal s) /\ weekday s = 6 /\
  toordinal d - 6 <= toordinal s <= toordinal d.
Proof.
  unfold get_sunday_of_week, sub, days. rewrite add_Ok. unfold weekday.
  destruct d as [o], s as [o']. cbn [toordinal]. split.
  - intros [Hv [= ->]]. split; [done|]. Z.to_euclidean_division_equations; lia.
  - intros (Hv & Hwd & Hlo & Hhi).
    assert (o + - (((o + 6) mod 7 + 1) mod 7) = o') as ->
      by (Z.to_euclidean_division_equations; lia).
    done.
Qed.

(** The first day of the calendar is a Monday; the Sunday before it is not
    a [datetime.date], and the subtraction raises OverflowError. *)
Lemma get_sunday_of_week_first_day :
  weekday (ymd 1 1 1) = 0 /\ get_sunday_of_week (ymd 1 1 1) = Raise OverflowError.
Proof. by vm_compute. Qed.

Lemma read_examples :
  read_iso_date "2024-01-10" = Some (ymd 2024 1 10) /\
  read_iso_date "2024-01-07" = Some (ymd 2024 1 7) /\
  read_iso_date "" = None /\ read_iso_date "next sunday" = None.
Proof. vm_compute. done. Qed.

(** * The claims *)

(** ** The date mapper *)





(** C10. Whatever the bitmap and the origin, a list of dates the loop
    returns is strictly increasing, so no date occurs in it twice; and for a
    bitmap of width [W] whose grid lies on the calendar the loop does return
    a list. *)
Theorem C10_dates_strictly_increasing bitmap W origin :
  (forall ds, pixel_dates bitmap W origin = Ok ds ->
     StronglySorted lt ds /\ NoDup ds) /\
  (grid bitmap W -> representable origin W ->
     exists ds, pixel_dates bitmap W origin = Ok ds /\
       StronglySorted lt ds /\ NoDup ds).
Proof.
  assert (Hsorted : StronglySorted lt (planned bitmap W origin) /\
                    NoDup (planned bitmap W origin)).
  { split; [apply planned_sorted|].
    eapply StronglySorted_irrefl_NoDup; [|apply planned_sorted].
    intros d. unfold lt. lia. }
  split.
  - by intros ds ->%pixel_dates_sound.
  - intros Hgrid Hrep. exists (planned bitmap W origin).
    split; [by apply pixel_dates_total | done].
Qed.

Lemma C10_witness :
  grid bitmap_A 5 /\ representable (ymd 2024 1 7) 5 /\
  exists ds, pixel_dates bitmap_A 5 (ymd 2024 1 7) = Ok ds /\
    StronglySorted lt ds /\ NoDup ds.
Proof.
  assert (Hgrid : grid bitmap_A 5) by (split; [reflexivity | repeat constructor]).
  assert (Hrep : representable (ymd 2024 1 7) 5)
    by (vm_compute; split; [reflexivity | discriminate]).
  split; [exact Hgrid|]. split; [exact Hrep|].
  exact (proj2 (C10_dates_strictly_increasing bitmap_A 5 (ymd 2024 1 7)) Hgrid Hrep).
Defined.

(** C7, as amended. For the message "A", whose bitmap is the literal
    pattern, and the origin Sunday 2024-01-07, the loop emits eighteen dates:
    2024-01-08 to 2024-01-13 (column 0), 01-14 and 01-17, 01-21 and 01-24,
    01-28 and 01-31 (columns 1 to 3), and 2024-02-05 to 2024-02-10
    (column 4); they are the dates origin + c weeks + r days of the cells
    where the pattern has a "1". *)
Theorem C7_dates_of_A :
  build_bitmap "A" 1 = Ok bitmap_A /\
  weekday (ymd 2024 1 7) = 6 /\
  pixel_dates bitmap_A 5 (ymd 2024 1 7)
  = Ok [ymd 2024 1 8; ymd 2024 1 9; ymd 2024 1 10; ymd 2024 1 11;
        ymd 2024 1 12; ymd 2024 1 13;
        ymd 2024 1 14; ymd 2024 1 17;
        ymd 2024 1 21; ymd 2024 1 24;
        ymd 2024 1 28; ymd 2024 1 31;
        ymd 2024 2 5; ymd 2024 2 6; ymd 2024 2 7; ymd 2024 2 8;
        ymd 2024 2 9; ymd 2024 2 10] /\
  (forall ds, pixel_dates bitmap_A 5 (ymd 2024 1 7) = Ok ds ->
     forall d, d ∈ ds <->
       exists row col, (row < 7)%nat /\ (col < 5)%nat /\
         on_cell bitmap_A (row, col) /\ d = cell_date (ymd 2024 1 7) (row, col)).
Proof.
  split_and!.
  - by vm_compute.
  - reflexivity.
  - by vm_compute.
  - intros ds ->%pixel_dates_sound d. apply elem_of_planned.
Qed.

(** C7, as stated, fails: the emitted dates are not just 2024-01-08 and
    2024-01-09; 2024-01-10 is emitted too. *)
Lemma C7_counterexample :
  ~ exists ds, pixel_dates bitmap_A 5 (ymd 2024 1 7) = Ok ds /\
      forall d, d ∈ ds <-> d ∈ [ymd 2024 1 8; ymd 2024 1 9].
Proof.
  intros (ds & Hrun & Hset). vm_compute in Hrun. injection Hrun as <-.
  assert (Hin : ymd 2024 1 10 ∈ [ymd 2024 1 8; ymd 2024 1 9]).
  { apply Hset. vm_compute. do 2 right. left. }
  rewrite !elem_of_cons, elem_of_nil in Hin.
  destruct Hin as [H|[H|[]]]; vm_compute in H; discriminate H.
Qed.

(** ** The origin of the grid *)

Lemma sub_valid d k :
  valid_ordinal (toordinal d - k) -> sub d k = Ok (Date (toordinal d - k)).
Proof.
  intros H. unfold sub. rewrite add_valid; [done|].
  by replace (toordinal d + - k) with (toordinal d - k) by lia.
Qed.

(** C2. With no start date on the command line, the origin is the Sunday
    of the anchor's week minus W - 1 weeks, and the week of the last column,
    origin + (W - 1) weeks, starts on the same Sunday as the anchor's week. *)
Theorem C2_right_alignment strptime a w W anchor_sunday :
  start_sunday a = None ->
  valid_ordinal (toordinal anchor_sunday) ->
  weekday anchor_sunday = 6 ->
  toordinal (today w) - 6 <= toordinal anchor_sunday <= toordinal (today w) ->
  valid_ordinal (toordinal anchor_sunday - 7 * (Z.of_nat W - 1)) ->
  get_sunday_of_week (today w) = Ok anchor_sunday /\
  exists origin last,
    resolve_start strptime a w W = ([], Ok (anchor_sunday, origin)) /\
    toordinal origin = toordinal anchor_sunday - 7 * (Z.of_nat W - 1) /\
    add origin (weeks (Z.of_nat W - 1)) = Ok last /\
    get_sunday_of_week last = get_sunday_of_week (today w).
Proof.
  intros Hnone Hvalid Hsun Hweek Horigin.
  assert (Hanchor : get_sunday_of_week (today w) = Ok anchor_sunday)
    by by apply get_sunday_of_week_Ok.
  split; [done|].
  exists (Date (toordinal anchor_sunday - 7 * (Z.of_nat W - 1))), anchor_sunday.
  split_and!.
  - unfold resolve_start, default_start. rewrite Hanchor, Hnone.
    cbn [mbind result_bind rbind]. unfold weeks. by rewrite sub_valid.
  - done.
  - apply add_Ok. unfold weeks. cbn [toordinal]. destruct anchor_sunday as [o].
    cbn [toordinal] in *. split; [|f_equal; lia].
    by replace (o - 7 * (Z.of_nat W - 1) + 7 * (Z.of_nat W - 1)) with o by lia.
  - rewrite Hanchor. apply get_sunday_of_week_Ok. split_and!; [done | done | lia | lia].
Qed.

Lemma C2_witness :
  let w := Env true (ymd 2024 6 12) "y" (fun _ _ => true) in
  get_sunday_of_week (today w) = Ok (ymd 2024 6 9) /\
  exists origin last,
    resolve_start read_iso_date (Args 4 None false) w 35
    = ([], Ok (ymd 2024 6 9, origin)) /\
    toordinal origin = toordinal (ymd 2024 6 9) - 7 * (Z.of_nat 35 - 1) /\
    add origin (weeks (Z.of_nat 35 - 1)) = Ok last /\
    get_sunday_of_week last = get_sunday_of_week (today w).
Proof.
  apply (C2_right_alignment read_iso_date (Args 4 None false)
           (Env true (ymd 2024 6 12) "y" (fun _ _ => true)) 35 (ymd 2024 6 9)).
  - reflexivity.
  - vm_compute. split; [reflexivity | discriminate].
  - reflexivity.
  - vm_compute. split; discriminate.
  - vm_compute. split; [reflexivity | discriminate].
Defined.

(** From 0001-01-07 on, every date that is not a Sunday has a Sunday of the
    calendar in the six days before it. *)
Lemma previous_sunday_exists start :
  weekday start <> 6 -> 7 <= toordinal start <= MAXORDINAL ->
  exists sunday, valid_ordinal (toordinal sunday) /\ weekday sunday = 6 /\
    toordinal start - 6 <= toordinal sunday < toordinal start.
Proof.
  intros Hwd Hrange.
  exists (Date (toordinal start - (weekday start + 1) mod 7)).
  unfold valid_ordinal, weekday in *. cbn [toordinal].
  unfold MAXORDINAL in *. Z.to_euclidean_division_equations; lia.
Qed.

(** C3, as amended. A start date given on the command line, from
    0001-01-07 on, that is not a Sunday is replaced by the Sunday of the one
    to six days before it, the only Sunday there, and the warning is
    printed; a start date that is a Sunday is used as it is, with no
    warning. *)
Theorem C3_snap_to_sunday strptime a w W s start current_week_sunday default :
  start_sunday a = Some s -> s <> "" -> strptime s = Some start ->
  valid_ordinal (toordinal start) ->
  default_start (today w) W = Ok (current_week_sunday, default) ->
  (weekday start <> 6 -> 7 <= toordinal start ->
   exists sunday,
     weekday sunday = 6 /\
     toordinal start - 6 <= toordinal sunday < toordinal start /\
     (forall other, weekday other = 6 ->
        toordinal start - 6 <= toordinal other < toordinal start ->
        other = sunday) /\
     resolve_start strptime a w W
     = ([Stdout WarnNotSunday], Ok (current_week_sunday, sunday))) /\
  (weekday start = 6 ->
   resolve_start strptime a w W = ([], Ok (current_week_sunday, start))).
Proof.
  intros Harg Hs Hparse Hvalid Hdefault. unfold resolve_start.
  rewrite Hdefault, Harg. cbn [lift mbind prog_bind pbind].
  rewrite bool_decide_eq_true_2 by done. rewrite Hparse. split.
  - intros Hwd Hlate.
    destruct (previous_sunday_exists start Hwd) as (sunday & Hsv & Hsun & Hweek);
      [unfold valid_ordinal in Hvalid; lia|].
    exists sunday. split; [done|]. split; [done|]. split.
    + intros [o] Hother Hrange. destruct sunday as [o'].
      unfold weekday in *. cbn [toordinal] in *. f_equal.
      Z.to_euclidean_division_equations; lia.
    + rewrite bool_decide_eq_true_2 by done.
      assert (Hsnap : get_sunday_of_week start = Ok sunday).
      { apply get_sunday_of_week_Ok. split_and!; [done | done | lia | lia]. }
      rewrite Hsnap. reflexivity.
  - intros Hwd. by rewrite bool_decide_eq_false_2 by (intros H; by apply H).
Qed.

Lemma C3_witness :
  let w := Env true (ymd 2024 6 12) "y" (fun _ _ => true) in
  weekday (ymd 2024 1 10) <> 6 /\ 7 <= toordinal (ymd 2024 1 10) /\
  (exists sunday,
     weekday sunday = 6 /\
     toordinal (ymd 2024 1 10) - 6 <= toordinal sunday < toordinal (ymd 2024 1 10) /\
     (forall other, weekday other = 6 ->
        toordinal (ymd 2024 1 10) - 6 <= toordinal other < toordinal (ymd 2024 1 10) ->
        other = sunday) /\
     resolve_start read_iso_date (Args 4 (Some "2024-01-10") false) w 35
     = ([Stdout WarnNotSunday], Ok (ymd 2024 6 9, sunday))) /\
  resolve_start read_iso_date (Args 4 (Some "2024-01-07") false) w 35
  = ([], Ok (ymd 2024 6 9, ymd 2024 1 7)).
Proof.
  intros w.
  assert (Hwd : weekday (ymd 2024 1 10) <> 6) by (vm_compute; discriminate).
  assert (Hlate : 7 <= toordinal (ymd 2024 1 10)) by (vm_compute; discriminate).
  split; [exact Hwd|]. split; [exact Hlate|]. split.
  - refine (proj1 (C3_snap_to_sunday read_iso_date (Args 4 (Some "2024-01-10") false)
                     w 35 "2024-01-10" (ymd 2024 1 10) (ymd 2024 6 9) (ymd 2023 10 15)
                     eq_refl _ eq_refl _ eq_refl) Hwd Hlate).
    + discriminate.
    + vm_compute. split; [reflexivity | discriminate].
  - refine (proj2 (C3_snap_to_sunday read_iso_date (Args 4 (Some "2024-01-07") false)
                     w 35 "2024-01-07" (ymd 2024 1 7) (ymd 2024 6 9) (ymd 2023 10 15)
                     eq_refl _ eq_refl _ eq_refl) eq_refl).
    + discriminate.
    + vm_compute. split; [reflexivity | discriminate].
Defined.

(** C3, as stated, fails in the first six days of the calendar:
    0001-01-03 parses and is a Wednesday, no Sunday of [datetime.date] lies
    before it, and after the warning the subtraction raises OverflowError,
    so the run has no origin at all. *)
Lemma C3_counterexample :
  let a := Args 4 (Some "0001-01-03") false in
  let w := Env true (ymd 2024 6 12) "y" (fun _ _ => true) in
  read_iso_date "0001-01-03" = Some (ymd 1 1 3) /\
  weekday (ymd 1 1 3) = 2 /\
  resolve_start read_iso_date a w 35
  = ([Stdout WarnNotSunday], Raise OverflowError) /\
  ~ exists origin,
      (resolve_start read_iso_date a w 35).2 = Ok (ymd 2024 6 9, origin).
Proof.
  intros a w. split_and!; [reflexivity | reflexivity | by vm_compute |].
  intros [origin H]. vm_compute in H. discriminate H.
Qed.

(** ** Runs of [main] that stop before any commit *)

Lemma build_bitmap_MESSAGE :
  exists bitmap row0, build_bitmap MESSAGE 1 = Ok bitmap /\
    index bitmap 0 = Ok row0 /\ String.length row0 = 35%nat.
Proof. vm_compute. eauto. Qed.

(** A non-empty start date string that does not parse ends the run with
    an exception, and git is asked for no commit; with the working directory
    inside a repository (and the default origin on the calendar) the run
    reports the invalid date and exits with status 1. *)
Theorem nonempty_unparsable_start_date_aborts strptime a w s :
  start_sunday a = Some s -> s <> "" -> strptime s = None ->
  no_commit (main strptime a w).1 /\ fatal (main strptime a w).2 /\
  (in_work_tree w = true ->
   (exists x, default_start (today w) 35 = Ok x) ->
   main strptime a w
   = ([GitRevParse; Stdout (MsgBitmapWidth MESSAGE 35); Stderr ErrInvalidDate],
      Raise (SystemExit 1))).
Proof.
  intros Harg Hs Hparse.
  destruct build_bitmap_MESSAGE as (bitmap & row0 & Hbitmap & Hrow0 & Hlen).
  unfold main, main_with, ensure_git_repo, resolve_start.
  destruct (in_work_tree w); run_step.
  - rewrite Hbitmap. run_step. rewrite Hrow0. run_step. rewrite Hlen, Harg, Hparse.
    rewrite (bool_decide_eq_true_2 (s <> "")) by done.
    destruct (default_start (today w) 35) as [[cws default]|e] eqn:Hd;
      cbn; (split; [solve_no_commit|]); (split; [eexists; reflexivity|]).
    + done.
    + by intros _ [x [=]].
  - split; [solve_no_commit|]. split; [eexists; reflexivity | done].
Qed.

Lemma nonempty_unparsable_start_date_example :
  let a := Args 4 (Some "next sunday") false in
  let w := Env true (ymd 2024 6 12) "y" (fun _ _ => true) in
  no_commit (main read_iso_date a w).1 /\ fatal (main read_iso_date a w).2 /\
  main read_iso_date a w
  = ([GitRevParse; Stdout (MsgBitmapWidth MESSAGE 35); Stderr ErrInvalidDate],
     Raise (SystemExit 1)).
Proof.
  intros a w.
  destruct (nonempty_unparsable_start_date_aborts read_iso_date a w "next sunday")
    as (Hno & Hfatal & Hrun).
  - reflexivity.
  - discriminate.
  - reflexivity.
  - split; [exact Hno|]. split; [exact Hfatal|].
    apply Hrun; [reflexivity|]. eexists. vm_compute. reflexivity.
Defined.

(** [if args.start_sunday:] takes the empty string for an absent option:
    whatever the parser, the run is the run without the option. *)
Lemma empty_start_date_as_absent strptime message n dry w :
  main_with strptime message (Args n (Some "") dry) w
  = main_with strptime message (Args n None dry) w.
Proof. reflexivity. Qed.

(** C6. The code breaks the claim at the empty string: [--start-sunday ""]
    does not parse as a date, yet the run reports nothing, keeps the default
    origin, goes on to the commits and ends normally, where every other
    string that does not parse ends the run with the error and status 1. *)
Lemma C6_empty_start_date_is_ignored :
  let a := Args 1 (Some "") false in
  let w := Env true (ymd 2024 6 12) "y" (fun _ _ => true) in
  start_sunday a = Some "" /\ read_iso_date "" = None /\
  GitCommit (ymd 2023 10 15) 1 1 ∈ (main read_iso_date a w).1 /\
  ~ no_commit (main read_iso_date a w).1 /\
  (main read_iso_date a w).2 = Ok tt /\
  ~ fatal (main read_iso_date a w).2.
Proof.
  intros a w.
  assert (Hin : GitCommit (ymd 2023 10 15) 1 1 ∈ (main read_iso_date a w).1).
  { vm_compute. do 6 apply list_elem_of_further. apply list_elem_of_here. }
  split_and!; [reflexivity | reflexivity | exact Hin | | by vm_compute |].
  - intros Hno. exact (Hno _ _ _ Hin).
  - intros [e He]. vm_compute in He. discriminate He.
Qed.

(** ** The bitmap builder *)

(** C4, as amended. For a message of characters of the font table the
    builder returns seven rows; row r is the r-th rows of the characters'
    patterns, each five columns wide, joined left to right with one "0"
    between neighbours and nothing before the first or after the last; for
    a message that is not empty every row has 5 n + (n - 1) columns, n the
    length of the message. *)
Theorem C4_bitmap_layout message :
  let chars := list_ascii_of_string message in
  let n := Z.of_nat (String.length message) in
  Forall supported chars ->
  exists rows, build_bitmap message 1 = Ok rows /\
    length rows = 7%nat /\
    (forall r row, rows !! r = Some row ->
       row = join "0" ((fun ch => glyph_row ch r) <$> chars)) /\
    (forall ch r, ch ∈ chars -> (r < 7)%nat ->
       String.length (glyph_row ch r) = 5%nat) /\
    (message <> "" ->
     Forall (fun row => Z.of_nat (String.length row) = 5 * n + (n - 1)) rows).
Proof.
  intros chars n Hall. exists (layout chars 1).
  split; [by apply build_bitmap_ok|]. split; [reflexivity|]. split_and!.
  - by intros r row [_ ->]%layout_lookup.
  - intros ch r Hch Hr. apply glyph_row_length; [|done].
    rewrite Forall_forall in Hall. auto.
  - intros Hne. apply Forall_forall.
    intros row [r [Hr ->]%layout_lookup]%list_elem_of_lookup.
    rewrite join_length.
    + rewrite length_fmap. subst chars n.
      rewrite length_list_ascii_of_string. change (String.length (str_mul "0" 1)) with 1%nat.
      lia.
    + subst chars. destruct message; [done | discriminate].
    + apply Forall_fmap, Forall_forall. intros ch Hch. cbn.
      apply glyph_row_length; [|done]. rewrite Forall_forall in Hall. auto.
Qed.

Lemma C4_witness :
  Forall supported (list_ascii_of_string "Pizza!") /\
  exists rows, build_bitmap "Pizza!" 1 = Ok rows /\
    length rows = 7%nat /\
    (forall r row, rows !! r = Some row ->
       row = join "0" ((fun ch => glyph_row ch r) <$> list_ascii_of_string "Pizza!")) /\
    (forall ch r, ch ∈ list_ascii_of_string "Pizza!" -> (r < 7)%nat ->
       String.length (glyph_row ch r) = 5%nat) /\
    ("Pizza!" <> "" ->
     Forall (fun row => Z.of_nat (String.length row) = 5 * 6 + (6 - 1)) rows).
Proof.
  assert (Hall : Forall supported (list_ascii_of_string "Pizza!")).
  { repeat constructor; apply (bool_decide_unpack _); vm_compute; exact I. }
  split; [exact Hall|]. exact (C4_bitmap_layout "Pizza!" Hall).
Defined.

(** C4, as stated, fails at the empty message: the seven rows are empty,
    of length 0, where 5 * 0 + (0 - 1) is -1. *)
Lemma C4_counterexample :
  Forall supported (list_ascii_of_string "") /\
  build_bitmap "" 1 = Ok (replicate 7 "") /\
  ~ Forall (fun row => Z.of_nat (String.length row)
                       = 5 * Z.of_nat (String.length "")
                         + (Z.of_nat (String.length "") - 1))
      (replicate 7 "").
Proof.
  split; [constructor|]. split; [reflexivity|].
  intros H. apply Forall_inv in H. cbn in H. discriminate H.
Qed.

(** C5. The builder raises the unsupported-character error exactly when
    some character of the message has no entry in the font table, and it
    raises nothing else; with every character in the table it returns a
    bitmap. In [main] the error ends the run right after the repository
    check: nothing is printed, no origin or date is computed, and git is
    asked for no commit. *)
Theorem C5_unsupported_character message gap :
  let chars := list_ascii_of_string message in
  ((exists ch, build_bitmap message gap = Raise (ValueError (NoFontPattern ch)))
   <-> (exists ch, ch ∈ chars /\ FONT !! ch = None)) /\
  (forall e, build_bitmap message gap = Raise e ->
     exists ch, e = ValueError (NoFontPattern ch) /\ ch ∈ chars /\
       FONT !! ch = None) /\
  ((forall ch, ch ∈ chars -> is_Some (FONT !! ch)) ->
     exists rows, build_bitmap message gap = Ok rows) /\
  (forall strptime a w e, build_bitmap message 1 = Raise e ->
     no_commit (main_with strptime message a w).1 /\
     main_with strptime message a w
     = if in_work_tree w then ([GitRevParse], Raise e)
       else ([GitRevParse; Stderr ErrNotGitRepo], Raise (SystemExit 1))).
Proof.
  intros chars.
  assert (Hraise : forall g e, build_bitmap message g = Raise e ->
    exists ch, e = ValueError (NoFontPattern ch) /\ ch ∈ chars /\
      FONT !! ch = None).
  { intros g e He.
    destruct (first_unsupported chars) as [Hall|(pre & ch & post & Hsplit & Hpre & Hch)].
    - rewrite build_bitmap_ok in He by done. discriminate He.
    - rewrite (build_bitmap_first_unsupported _ _ _ _ _ Hsplit Hpre Hch) in He.
      injection He as <-. exists ch. split; [done|]. split.
      + rewrite Hsplit. apply elem_of_app. right. constructor.
      + by apply not_supported_lookup. }
  split_and!.
  - split.
    + intros [ch (ch' & _ & Hin & Hnone)%Hraise]. eauto.
    + intros (ch & Hin & Hnone).
      destruct (first_unsupported chars) as [Hall|(pre & ch' & post & Hsplit & Hpre & Hch)].
      * rewrite Forall_forall in Hall. apply Hall in Hin.
        unfold supported in Hin. rewrite Hnone in Hin. by destruct Hin.
      * exists ch'. by eapply build_bitmap_first_unsupported.
  - apply Hraise.
  - intros Hall. exists (layout chars gap). apply build_bitmap_ok.
    apply Forall_forall. exact Hall.
  - intros strptime a w e He. unfold main_with, ensure_git_repo.
    destruct (in_work_tree w); run_step.
    + rewrite He. run_step. split; [solve_no_commit | done].
    + split; [solve_no_commit | done].
Qed.

Lemma C5_witness :
  build_bitmap "Pix" 1 = Raise (ValueError (NoFontPattern "x")) /\
  (exists ch, ch ∈ list_ascii_of_string "Pix" /\ FONT !! ch = None) /\
  (exists rows, build_bitmap "Pizza!" 1 = Ok rows) /\
  main_with read_iso_date "Pix" (Args 4 None false)
    (Env true (ymd 2024 6 12) "y" (fun _ _ => true))
  = ([GitRevParse], Raise (ValueError (NoFontPattern "x"))).
Proof.
  assert (Hraise : build_bitmap "Pix" 1 = Raise (ValueError (NoFontPattern "x")))
    by (vm_compute; reflexivity).
  split; [exact Hraise|]. split_and!.
  - apply (proj1 (C5_unsupported_character "Pix" 1)). eexists. exact Hraise.
  - apply (proj1 (proj2 (proj2 (C5_unsupported_character "Pizza!" 1)))).
    intros ch Hin. apply (bool_decide_unpack _).
    cbn in Hin. rewrite !elem_of_cons, elem_of_nil in Hin.
    repeat (destruct Hin as [->|Hin]; [vm_compute; exact I|]). destruct Hin.
  - exact (proj2 (proj2 (proj2 (proj2 (C5_unsupported_character "Pix" 1)))
                   read_iso_date (Args 4 None false)
                   (Env true (ymd 2024 6 12) "y" (fun _ _ => true)) _ Hraise)).
Defined.

Lemma case_variant_FONT_get a b :
  case_variant a b ->
  a = b \/ (FONT_get a = FONT_get b /\ is_Some (FONT_get a)).
Proof.
  intros [->|Hab]; [by left | right].
  rewrite !elem_of_cons, elem_of_nil in Hab.
  destruct Hab as [H|[H|[H|[H|[H|[H|[H|[H|[]]]]]]]]];
    injection H as -> ->; (split; [reflexivity | eexists; reflexivity]).
Qed.

(** C9. The lowercase letters p, i, z and a have the patterns of P, I, Z
    and A: two messages that differ only in the case of such letters get the
    same pattern character by character, and the builder gives the same
    result for both. *)
Theorem C9_case_aliases m1 m2 gap :
  Forall2 case_variant (list_ascii_of_string m1) (list_ascii_of_string m2) ->
  Forall2 (fun a b => FONT_get a = FONT_get b)
    (list_ascii_of_string m1) (list_ascii_of_string m2) /\
  build_bitmap m1 gap = build_bitmap m2 gap.
Proof.
  intros Hvar.
  assert (Hbody : forall a b, case_variant a b ->
    FONT_get a = FONT_get b /\
    forall st, build_bitmap_body gap st a = build_bitmap_body gap st b).
  { intros a b Hab. destruct (case_variant_FONT_get a b Hab) as [->|[Heq Hsome]].
    - done.
    - split; [done|]. intros [rows first]. unfold build_bitmap_body.
      rewrite Heq in Hsome |- *. by destruct Hsome as [pattern ->]. }
  split.
  - eapply Forall2_impl; [exact Hvar|]. intros a b Hab. by apply Hbody.
  - unfold build_bitmap. generalize (replicate 7 "", true).
    induction Hvar as [|a b l1 l2 Hab _ IH]; intros st; [done|].
    cbn [for_each]. rewrite (proj2 (Hbody a b Hab) st).
    destruct (build_bitmap_body gap st b) as [st'|e]; [|done].
    cbn [mbind result_bind rbind] in *. apply IH.
Qed.

Lemma C9_witness :
  Forall2 case_variant (list_ascii_of_string "Pizza!") (list_ascii_of_string "pIZzA!") /\
  build_bitmap "Pizza!" 1 = build_bitmap "pIZzA!" 1.
Proof.
  assert (Hvar : Forall2 case_variant (list_ascii_of_string "Pizza!")
                   (list_ascii_of_string "pIZzA!")).
  { repeat constructor; first [by left | right; cbn; rewrite !elem_of_cons; tauto]. }
  split; [exact Hvar|]. exact (proj2 (C9_case_aliases "Pizza!" "pIZzA!" 1 Hvar)).
Defined.

(** * Further properties of the code *)

(** ** The font table *)

Lemma FONT_patterns_binary ch v :
  FONT !! ch = Some v ->
  exists pattern, v = Some pattern /\ length pattern = 7%nat /\
    Forall (fun row => String.length row = 5%nat /\ binary row) pattern.
Proof.
  intros Hch.
  assert (Hall : map_Forall (fun _ v => pattern_wf v) FONT)
    by (apply (bool_decide_unpack _); vm_compute; exact I).
  specialize (Hall ch v Hch). destruct v as [pattern|]; [|destruct Hall].
  exists pattern. by destruct Hall.
Qed.

(** X1. Once the module is loaded, every entry of the font table is a
    pattern, none is [None]: seven rows of five characters, each "0" or
    "1". *)
Theorem X1_font_patterns ch v :
  FONT !! ch = Some v ->
  exists pattern, v = Some pattern /\ length pattern = 7%nat /\
    Forall (fun row => String.length row = 5%nat /\ binary row) pattern.
Proof. apply FONT_patterns_binary. Qed.

Lemma X1_witness :
  FONT !! "z"%char
  = Some (Some ["11111"; "00001"; "00010"; "00100"; "01000"; "10000"; "11111"]) /\
  exists pattern,
    Some ["11111"; "00001"; "00010"; "00100"; "01000"; "10000"; "11111"]
    = Some pattern /\ length pattern = 7%nat /\
    Forall (fun row => String.length row = 5%nat /\ binary row) pattern.
Proof.
  assert (H : FONT !! "z"%char
    = Some (Some ["11111"; "00001"; "00010"; "00100"; "01000"; "10000"; "11111"]))
    by (vm_compute; reflexivity).
  split; [exact H|]. exact (X1_font_patterns "z"%char _ H).
Defined.

(** X2. [FONT.get] finds a pattern for exactly nine characters: P, I, Z,
    A, the exclamation mark, and p, i, z, a. *)
Theorem X2_supported_characters ch :
  is_Some (FONT_get ch) <-> ch ∈ FONT_keys.
Proof.
  assert (H : bool_decide (is_Some (FONT_get ch)) = bool_decide (ch ∈ FONT_keys)).
  { destruct ch as [[] [] [] [] [] [] [] []]; vm_compute; reflexivity. }
  split; intros Hx.
  - apply (bool_decide_unpack _). rewrite <- H. by apply bool_decide_pack.
  - apply (bool_decide_unpack _). rewrite H. by apply bool_decide_pack.
Qed.

(** ** The bitmap builder *)

Lemma list_ascii_of_string_app (a b : string) :
  list_ascii_of_string (a +:+ b)
  = list_ascii_of_string a ++ list_ascii_of_string b.
Proof.
  induction a as [|c a IH]; [done|].
  rewrite str_app_cons. cbn [list_ascii_of_string]. by rewrite IH.
Qed.

Lemma str_mul_length gap : String.length (str_mul "0" gap) = Z.to_nat gap.
Proof.
  unfold str_mul. induction (Z.to_nat gap) as [|n IH]; [done|].
  cbn [str_repeat]. rewrite str_length_app, IH. done.
Qed.

Lemma join_app sep (l1 l2 : list string) :
  l1 <> [] -> l2 <> [] ->
  join sep (l1 ++ l2) = join sep l1 +:+ sep +:+ join sep l2.
Proof.
  intros H1 H2. induction l1 as [|a [|b t] IH]; [done | |].
  - destruct l2; [done|]. reflexivity.
  - change (join sep ((a :: b :: t) ++ l2))
      with (a +:+ sep +:+ join sep ((b :: t) ++ l2)).
    rewrite IH by done.
    change (join sep (a :: b :: t)) with (a +:+ sep +:+ join sep (b :: t)).
    by rewrite !str_app_assoc.
Qed.

Lemma str_get_app_l (a b : string) (k : nat) :
  (k < String.length a)%nat -> String.get k (a +:+ b) = String.get k a.
Proof.
  revert k. induction a as [|c a IH]; intros k Hk; cbn [String.length] in Hk; [lia|].
  rewrite str_app_cons. destruct k as [|k]; [done|].
  cbn [String.get]. apply IH. lia.
Qed.

Lemma str_get_app_r (a b : string) (k : nat) :
  String.get (String.length a + k) (a +:+ b) = String.get k b.
Proof.
  induction a as [|c a IH]; [done|]. rewrite str_app_cons. exact IH.
Qed.

Lemma join_get_part sep parts i p j :
  Forall (fun s => String.length s = 5%nat) parts ->
  parts !! i = Some p -> (j < 5)%nat ->
  String.get ((5 + String.length sep) * i + j) (join sep parts) = String.get j p.
Proof.
  intros Hall. revert i.
  induction parts as [|a [|b t] IH]; intros i Hi Hj; [done | |].
  - destruct i as [|i]; [|done]. injection Hi as <-.
    by rewrite Nat.mul_0_r.
  - rewrite Forall_cons in Hall. destruct Hall as [Ha Hall].
    change (join sep (a :: b :: t)) with (a +:+ sep +:+ join sep (b :: t)).
    destruct i as [|i].
    + injection Hi as <-. rewrite Nat.mul_0_r. apply str_get_app_l.
      cbv beta in Ha. lia.
    + replace ((5 + String.length sep) * S i + j)%nat
        with (String.length a
              + (String.length sep + ((5 + String.length sep) * i + j)))%nat
        by (cbv beta in Ha; lia).
      rewrite !str_get_app_r. by apply IH.
Qed.

Lemma join_get_sep sep (parts : list string) i j :
  Forall (fun s => String.length s = 5%nat) parts ->
  (S i < length parts)%nat -> (j < String.length sep)%nat ->
  String.get ((5 + String.length sep) * i + 5 + j) (join sep parts)
  = String.get j sep.
Proof.
  intros Hall. revert i.
  induction parts as [|a [|b t] IH]; intros i Hi Hj; cbn [length] in Hi; [lia | lia |].
  rewrite Forall_cons in Hall. destruct Hall as [Ha Hall]. cbv beta in Ha.
  change (join sep (a :: b :: t)) with (a +:+ sep +:+ join sep (b :: t)).
  destruct i as [|i].
  - replace ((5 + String.length sep) * 0 + 5 + j)%nat
      with (String.length a + j)%nat by lia.
    rewrite str_get_app_r. by apply str_get_app_l.
  - replace ((5 + String.length sep) * S i + 5 + j)%nat
      with (String.length a
            + (String.length sep + ((5 + String.length sep) * i + 5 + j)))%nat
      by lia.
    rewrite !str_get_app_r. apply IH; [done | cbn [length]; lia | done].
Qed.

Lemma str_mul_get gap j :
  (j < Z.to_nat gap)%nat -> String.get j (str_mul "0" gap) = Some "0"%char.
Proof.
  unfold str_mul. revert j. induction (Z.to_nat gap) as [|n IH]; intros j Hj; [lia|].
  cbn [str_repeat]. change ("0" +:+ str_repeat "0" n) with (String "0" (str_repeat "0" n)).
  destruct j as [|j]; [done|]. cbn [String.get]. apply IH. lia.
Qed.

(** A bitmap the builder returns is the layout of a message of supported
    characters. *)
Lemma build_bitmap_Ok_inv message gap rows :
  build_bitmap message gap = Ok rows ->
  Forall supported (list_ascii_of_string message) /\
  rows = layout (list_ascii_of_string message) gap.
Proof.
  intros Hrun.
  destruct (first_unsupported (list_ascii_of_string message))
    as [Hall|(pre & ch & post & Hsplit & Hpre & Hch)].
  - rewrite build_bitmap_ok in Hrun by done. by injection Hrun as <-.
  - rewrite (build_bitmap_first_unsupported _ _ _ _ _ Hsplit Hpre Hch) in Hrun.
    discriminate Hrun.
Qed.

Lemma glyph_rows_length (chars : list ascii) r :
  Forall supported chars -> (r < 7)%nat ->
  Forall (fun s => String.length s = 5%nat) ((fun ch => glyph_row ch r) <$> chars).
Proof.
  intros Hall Hr. apply Forall_fmap, Forall_forall. intros ch Hch. cbn.
  apply glyph_row_length; [|done]. rewrite Forall_forall in Hall. auto.
Qed.

Lemma layout_row_length (chars : list ascii) gap r row :
  Forall supported chars -> chars <> [] ->
  layout chars gap !! r = Some row ->
  Z.of_nat (String.length row)
  = 5 * Z.of_nat (length chars) + Z.max 0 gap * (Z.of_nat (length chars) - 1).
Proof.
  intros Hall Hne [Hr ->]%layout_lookup.
  rewrite join_length.
  - rewrite length_fmap, str_mul_length. lia.
  - by destruct chars.
  - by apply glyph_rows_length.
Qed.

(** X3. For a non-empty message of supported characters and any gap, the
    builder returns seven rows of 5 n + g (n - 1) columns, n the length of
    the message and g the gap, a negative gap counting as 0. *)
Theorem X3_row_length_any_gap message gap :
  let n := Z.of_nat (String.length message) in
  message <> "" -> Forall supported (list_ascii_of_string message) ->
  exists rows, build_bitmap message gap = Ok rows /\ length rows = 7%nat /\
    Forall (fun row => Z.of_nat (String.length row)
                       = 5 * n + Z.max 0 gap * (n - 1)) rows.
Proof.
  intros n Hne Hall. exists (layout (list_ascii_of_string message) gap).
  split; [by apply build_bitmap_ok|]. split; [reflexivity|].
  apply Forall_forall. intros row [r Hr]%list_elem_of_lookup.
  rewrite (layout_row_length _ _ _ _ Hall) by (done || by destruct message).
  subst n. by rewrite length_list_ascii_of_string.
Qed.

Lemma X3_witness :
  "Pizza!" <> "" /\ Forall supported (list_ascii_of_string "Pizza!") /\
  exists rows, build_bitmap "Pizza!" (-2) = Ok rows /\ length rows = 7%nat /\
    Forall (fun row => Z.of_nat (String.length row) = 30) rows.
Proof.
  assert (Hne : "Pizza!" <> "") by discriminate.
  assert (Hall : Forall supported (list_ascii_of_string "Pizza!")).
  { repeat constructor; apply (bool_decide_unpack _); vm_compute; exact I. }
  split; [exact Hne|]. split; [exact Hall|].
  exact (X3_row_length_any_gap "Pizza!" (-2) Hne Hall).
Defined.

(** X4. The error of the builder names the leftmost character of the
    message that has no font entry, whatever follows it. *)
Theorem X4_leftmost_unsupported message gap pre ch post :
  list_ascii_of_string message = pre ++ ch :: post ->
  Forall supported pre -> FONT !! ch = None ->
  build_bitmap message gap = Raise (ValueError (NoFontPattern ch)).
Proof.
  intros Hsplit Hpre Hch. eapply build_bitmap_first_unsupported; [done | done |].
  by apply not_supported_lookup.
Qed.

Lemma X4_witness :
  list_ascii_of_string "Pi z?a" = ["P"; "i"]%char ++ " "%char :: ["z"; "?"; "a"]%char /\
  build_bitmap "Pi z?a" 1 = Raise (ValueError (NoFontPattern " ")).
Proof.
  split; [reflexivity|].
  apply (X4_leftmost_unsupported "Pi z?a" 1 ["P"; "i"]%char " "%char
           ["z"; "?"; "a"]%char).
  - reflexivity.
  - repeat constructor; apply (bool_decide_unpack _); vm_compute; exact I.
  - vm_compute. reflexivity.
Defined.

(** X5. The bitmap of two non-empty messages written one after the other
    is, row by row, the bitmap of the first, the gap, and the bitmap of the
    second. *)
Theorem X5_bitmap_of_concatenation m1 m2 gap rows1 rows2 :
  m1 <> "" -> m2 <> "" ->
  build_bitmap m1 gap = Ok rows1 -> build_bitmap m2 gap = Ok rows2 ->
  build_bitmap (m1 +:+ m2) gap
  = Ok (zip_with (fun a b => a +:+ str_mul "0" gap +:+ b) rows1 rows2).
Proof.
  intros H1 H2 [Hall1 ->]%build_bitmap_Ok_inv [Hall2 ->]%build_bitmap_Ok_inv.
  rewrite build_bitmap_ok.
  2:{ rewrite list_ascii_of_string_app. by apply Forall_app. }
  f_equal. rewrite list_ascii_of_string_app.
  assert (Hl1 : list_ascii_of_string m1 <> []) by by destruct m1.
  assert (Hl2 : list_ascii_of_string m2 <> []) by by destruct m2.
  unfold layout. cbn [seq fmap list_fmap zip_with].
  rewrite !fmap_app, !join_app; first done.
  all: intros Hnil; apply fmap_nil_inv in Hnil; contradiction.
Qed.

Lemma X5_witness :
  build_bitmap "Pi!" 1
  = Ok (zip_with (fun a b => a +:+ str_mul "0" 1 +:+ b)
          ["11110"; "10001"; "10001"; "11110"; "10000"; "10000"; "10000"]
          ["01110000100"; "00100000100"; "00100000100"; "00100000100";
           "00100000100"; "00100000000"; "01110000100"]).
Proof.
  apply (X5_bitmap_of_concatenation "P" "i!" 1).
  - discriminate.
  - discriminate.
  - vm_compute. reflexivity.
  - vm_compute. reflexivity.
Defined.

Lemma binary_app (a b : string) : binary a -> binary b -> binary (a +:+ b).
Proof. unfold binary. rewrite list_ascii_of_string_app. apply Forall_app_2. Qed.

Lemma binary_join sep parts :
  binary sep -> Forall binary parts -> binary (join sep parts).
Proof.
  intros Hsep. induction parts as [|a [|b t] IH]; intros Hall.
  - constructor.
  - by apply Forall_inv in Hall.
  - rewrite Forall_cons in Hall. destruct Hall as [Ha Hall].
    change (join sep (a :: b :: t)) with (a +:+ sep +:+ join sep (b :: t)).
    auto using binary_app.
Qed.

Lemma binary_str_mul gap : binary (str_mul "0" gap).
Proof.
  unfold str_mul. induction (Z.to_nat gap) as [|n IH]; [constructor|].
  cbn [str_repeat]. apply binary_app; [|done]. repeat constructor.
Qed.

Lemma glyph_row_binary ch r : binary (glyph_row ch r).
Proof.
  unfold glyph_row, FONT_get.
  destruct (FONT !! ch) as [v|] eqn:Hch; [|constructor].
  destruct (FONT_patterns_binary ch v Hch) as (pattern & -> & _ & Hrows).
  cbn. destruct (pattern !! r) as [row|] eqn:Hr; [|constructor].
  cbn. eapply Forall_lookup_1 in Hrows; [|done]. by destruct Hrows.
Qed.

(** X6. Every row of a bitmap the builder returns consists of the
    characters "0" and "1" only. *)
Theorem X6_bitmap_is_binary message gap rows :
  build_bitmap message gap = Ok rows -> Forall binary rows.
Proof.
  intros [_ ->]%build_bitmap_Ok_inv. apply Forall_forall.
  intros row [r [_ ->]%layout_lookup]%list_elem_of_lookup.
  apply binary_join; [apply binary_str_mul|].
  apply Forall_fmap, Forall_forall. intros ch _. apply glyph_row_binary.
Qed.

Lemma X6_witness :
  Forall binary
    ["11110001110"; "10001000100"; "10001000100"; "11110000100";
     "10000000100"; "10000000100"; "10000001110"].
Proof.
  apply (X6_bitmap_is_binary "Pi" 1). vm_compute. reflexivity.
Defined.

Lemma layout_grid (chars : list ascii) gap :
  Forall supported chars ->
  exists row0, layout chars gap !! 0%nat = Some row0 /\
    grid (layout chars gap) (String.length row0).
Proof.
  intros Hall.
  destruct (lookup_lt_is_Some_2 (layout chars gap) 0) as [row0 Hrow0];
    [cbn; lia|].
  exists row0. split; [done|]. split; [reflexivity|].
  apply Forall_forall. intros row [r Hr]%list_elem_of_lookup.
  destruct chars as [|c chars].
  - apply layout_lookup in Hr as [_ ->]. apply layout_lookup in Hrow0 as [_ ->].
    reflexivity.
  - apply Nat2Z.inj.
    rewrite (layout_row_length _ _ _ _ Hall ltac:(done) Hr).
    by rewrite (layout_row_length _ _ _ _ Hall ltac:(done) Hrow0).
Qed.

(** X7. A bitmap the builder returns is a grid: its seven rows are as
    wide as row 0, the width [main] uses; so on that bitmap the pixel loop
    raises no IndexError, and returns its dates whenever the grid lies on
    the calendar. *)
Theorem X7_built_bitmap_is_a_grid message gap bitmap :
  build_bitmap message gap = Ok bitmap ->
  exists row0, index bitmap 0 = Ok row0 /\
    grid bitmap (String.length row0) /\
    forall origin, representable origin (String.length row0) ->
      exists ds, pixel_dates bitmap (String.length row0) origin = Ok ds.
Proof.
  intros [Hall ->]%build_bitmap_Ok_inv.
  destruct (layout_grid _ gap Hall) as (row0 & Hrow0 & Hgrid).
  exists row0. unfold index. rewrite Hrow0. split; [done|]. split; [done|].
  intros origin Hrep. eexists. by apply pixel_dates_total.
Qed.

Lemma X7_witness :
  exists row0, index bitmap_A 0 = Ok row0 /\
    grid bitmap_A (String.length row0) /\
    forall origin, representable origin (String.length row0) ->
      exists ds, pixel_dates bitmap_A (String.length row0) origin = Ok ds.
Proof.
  apply (X7_built_bitmap_is_a_grid "A" 1). vm_compute. reflexivity.
Defined.

(** X8. In the bitmap of a message, with g the gap (0 if negative): the
    five columns from (5 + g) i on hold the pattern of character i, and,
    when another character follows, the next g columns are "0". *)
Theorem X8_columns_of_a_character message gap bitmap i ch r row :
  let g := Z.to_nat gap in
  build_bitmap message gap = Ok bitmap ->
  list_ascii_of_string message !! i = Some ch ->
  bitmap !! r = Some row ->
  (forall j, (j < 5)%nat ->
     String.get ((5 + g) * i + j) row = String.get j (glyph_row ch r)) /\
  (forall j, (j < g)%nat -> (S i < String.length message)%nat ->
     String.get ((5 + g) * i + 5 + j) row = Some "0"%char).
Proof.
  intros g [Hall ->]%build_bitmap_Ok_inv Hch [Hr ->]%layout_lookup.
  pose proof (glyph_rows_length _ r Hall Hr) as Hlen.
  subst g. rewrite <- (str_mul_length gap). split.
  - intros j Hj. apply join_get_part; [done | | done].
    by rewrite list_lookup_fmap, Hch.
  - intros j Hj Hnext. rewrite join_get_sep; [| done | | done].
    + apply str_mul_get. by rewrite <- (str_mul_length gap).
    + by rewrite length_fmap, length_list_ascii_of_string.
Qed.

Lemma X8_witness :
  build_bitmap "Pi!" 1
  = Ok ["11110001110000100"; "10001000100000100"; "10001000100000100";
        "11110000100000100"; "10000000100000100"; "10000000100000000";
        "10000001110000100"] /\
  (forall j, (j < 5)%nat ->
     String.get ((5 + Z.to_nat 1) * 1 + j) "11110001110000100"
     = String.get j (glyph_row "i" 0)) /\
  (forall j, (j < Z.to_nat 1)%nat -> (2 < String.length "Pi!")%nat ->
     String.get ((5 + Z.to_nat 1) * 1 + 5 + j) "11110001110000100"
     = Some "0"%char).
Proof.
  assert (Hrun : build_bitmap "Pi!" 1
    = Ok ["11110001110000100"; "10001000100000100"; "10001000100000100";
          "11110000100000100"; "10000000100000100"; "10000000100000000";
          "10000001110000100"])
    by (vm_compute; reflexivity).
  split; [exact Hrun|].
  exact (X8_columns_of_a_character "Pi!" 1 _ 1 "i"%char 0 "11110001110000100"
           Hrun eq_refl eq_refl).
Defined.

(** ** The week start *)

(** X9. The date [get_sunday_of_week] returns is a Sunday at most six
    days before its argument, and it is its own week start: applying the
    function again changes nothing. *)
Theorem X9_week_start_idempotent d s :
  get_sunday_of_week d = Ok s ->
  weekday s = 6 /\ toordinal d - 6 <= toordinal s <= toordinal d /\
  get_sunday_of_week s = Ok s.
Proof.
  intros (Hvalid & Hsun & Hweek)%get_sunday_of_week_Ok.
  split; [done|]. split; [done|].
  apply get_sunday_of_week_Ok. split_and!; [done | done | lia | lia].
Qed.

Lemma X9_witness :
  get_sunday_of_week (ymd 2024 6 12) = Ok (ymd 2024 6 9) /\
  weekday (ymd 2024 6 9) = 6 /\
  toordinal (ymd 2024 6 12) - 6 <= toordinal (ymd 2024 6 9)
    <= toordinal (ymd 2024 6 12) /\
  get_sunday_of_week (ymd 2024 6 9) = Ok (ymd 2024 6 9).
Proof.
  assert (H : get_sunday_of_week (ymd 2024 6 12) = Ok (ymd 2024 6 9))
    by (vm_compute; reflexivity).
  split; [exact H|]. exact (X9_week_start_idempotent _ _ H).
Defined.

Lemma get_sunday_of_week_overflow d :
  valid_ordinal (toordinal d) -> toordinal d <= 6 ->
  get_sunday_of_week d = Raise OverflowError.
Proof.
  intros [Hlo Hhi] Hsmall. unfold get_sunday_of_week, sub, add, days, weekday.
  set (o := toordinal d) in *.
  assert (Hk : ((o + 6) mod 7 + 1) mod 7 = o)
    by (Z.to_euclidean_division_equations; lia).
  rewrite Hk. replace (o + - o) with 0 by lia. reflexivity.
Qed.

(** X10. On a date of the calendar [get_sunday_of_week] raises
    OverflowError exactly in the first six days, 0001-01-01 to 0001-01-06,
    whose week begins before the calendar; from 0001-01-07 on it returns a
    date. *)
Theorem X10_week_start_overflow d :
  valid_ordinal (toordinal d) ->
  (get_sunday_of_week d = Raise OverflowError <-> toordinal d <= 6) /\
  (7 <= toordinal d -> exists s, get_sunday_of_week d = Ok s).
Proof.
  intros [Hlo Hhi]. unfold get_sunday_of_week, sub, add, days, weekday.
  set (o := toordinal d) in *. set (k := ((o + 6) mod 7 + 1) mod 7).
  assert (Hk : 0 <= k <= 6 /\ (o <= 6 -> k = o) /\ (7 <= o -> k < o))
    by (subst k; Z.to_euclidean_division_equations; lia).
  destruct Hk as (Hk & Hsmall & Hlarge). cbv zeta.
  destruct (0 <? o + - k) eqn:E1; destruct (o + - k <=? MAXORDINAL) eqn:E2;
    cbn [andb]; (split; [split|]); try discriminate; try (intros; lia);
    try done; eauto.
Qed.

Lemma X10_witness :
  valid_ordinal (toordinal (ymd 1 1 6)) /\ valid_ordinal (toordinal (ymd 1 1 7)) /\
  get_sunday_of_week (ymd 1 1 6) = Raise OverflowError /\
  exists s, get_sunday_of_week (ymd 1 1 7) = Ok s.
Proof.
  assert (H6 : valid_ordinal (toordinal (ymd 1 1 6)))
    by (vm_compute; split; [reflexivity | discriminate]).
  assert (H7 : valid_ordinal (toordinal (ymd 1 1 7)))
    by (vm_compute; split; [reflexivity | discriminate]).
  split; [exact H6|]. split; [exact H7|]. split.
  - apply (proj1 (X10_week_start_overflow (ymd 1 1 6) H6)). vm_compute. discriminate.
  - apply (proj2 (X10_week_start_overflow (ymd 1 1 7) H7)). vm_compute. discriminate.
Defined.

(** X11. Two dates have the same week start exactly when they lie in the
    same week running from that Sunday to the Saturday after it. *)
Theorem X11_same_week d s d' :
  get_sunday_of_week d = Ok s ->
  (get_sunday_of_week d' = Ok s <->
   toordinal s <= toordinal d' <= toordinal s + 6).
Proof.
  intros (Hvalid & Hsun & Hweek)%get_sunday_of_week_Ok.
  rewrite get_sunday_of_week_Ok. split.
  - intros (_ & _ & Hweek'). lia.
  - intros Hweek'. split_and!; [done | done | lia | lia].
Qed.

Lemma X11_witness :
  get_sunday_of_week (ymd 2024 6 12) = Ok (ymd 2024 6 9) /\
  get_sunday_of_week (ymd 2024 6 15) = Ok (ymd 2024 6 9) /\
  ~ get_sunday_of_week (ymd 2024 6 16) = Ok (ymd 2024 6 9).
Proof.
  assert (H : get_sunday_of_week (ymd 2024 6 12) = Ok (ymd 2024 6 9))
    by (vm_compute; reflexivity).
  split; [exact H|]. split.
  - apply (X11_same_week _ _ (ymd 2024 6 15) H). vm_compute.
    split; discriminate.
  - intros H'. apply (X11_same_week _ _ (ymd 2024 6 16) H) in H'.
    vm_compute in H'. destruct H' as [_ H']. by apply H'.
Defined.

(** X12. Moving a date by whole weeks moves its week start by as many
    weeks. *)
Theorem X12_week_start_of_shifted_date d s k d' :
  get_sunday_of_week d = Ok s -> add d (weeks k) = Ok d' ->
  valid_ordinal (toordinal s + 7 * k) ->
  get_sunday_of_week d' = add s (weeks k).
Proof.
  intros (Hvalid & Hsun & Hweek)%get_sunday_of_week_Ok [_ ->]%add_Ok Hs.
  unfold weeks in *. rewrite (add_valid s) by done.
  apply get_sunday_of_week_Ok. cbn [toordinal]. split; [done|].
  unfold weekday in *. cbn [toordinal].
  split; [Z.to_euclidean_division_equations; lia | lia].
Qed.

Lemma X12_witness :
  get_sunday_of_week (ymd 2024 6 12) = Ok (ymd 2024 6 9) /\
  add (ymd 2024 6 12) (weeks (-34)) = Ok (ymd 2023 10 18) /\
  get_sunday_of_week (ymd 2023 10 18) = add (ymd 2024 6 9) (weeks (-34)).
Proof.
  assert (H : get_sunday_of_week (ymd 2024 6 12) = Ok (ymd 2024 6 9))
    by (vm_compute; reflexivity).
  assert (H' : add (ymd 2024 6 12) (weeks (-34)) = Ok (ymd 2023 10 18))
    by (vm_compute; reflexivity).
  split; [exact H|]. split; [exact H'|].
  apply (X12_week_start_of_shifted_date _ _ _ _ H H').
  vm_compute. split; [reflexivity | discriminate].
Defined.

(** X13. [sunday_for] agrees with [get_sunday_of_week] on every day but
    Sunday; on a Sunday, which is its own week start, it steps back a whole
    week to the Sunday before. *)
Theorem X13_sunday_for d :
  (weekday d <> 6 -> sunday_for d = get_sunday_of_week d) /\
  (weekday d = 6 -> valid_ordinal (toordinal d) ->
   get_sunday_of_week d = Ok d /\ sunday_for d = sub d (days 7)).
Proof.
  unfold sunday_for, get_sunday_of_week, weekday. split.
  - intros Hwd. f_equal. unfold days. Z.to_euclidean_division_equations; lia.
  - intros Hwd Hvalid. rewrite Hwd. split; [|done].
    change ((6 + 1) mod 7) with 0. unfold sub, days.
    rewrite add_valid by (by replace (toordinal d + - 0) with (toordinal d) by lia).
    destruct d as [o]. cbn [toordinal]. do 2 f_equal. lia.
Qed.

Lemma X13_witness :
  weekday (ymd 2024 6 12) <> 6 /\ weekday (ymd 2024 6 9) = 6 /\
  sunday_for (ymd 2024 6 12) = get_sunday_of_week (ymd 2024 6 12) /\
  get_sunday_of_week (ymd 2024 6 9) = Ok (ymd 2024 6 9) /\
  sunday_for (ymd 2024 6 9) = sub (ymd 2024 6 9) (days 7).
Proof.
  assert (H1 : weekday (ymd 2024 6 12) <> 6) by (vm_compute; discriminate).
  assert (H2 : weekday (ymd 2024 6 9) = 6) by reflexivity.
  split; [exact H1|]. split; [exact H2|]. split.
  - exact (proj1 (X13_sunday_for (ymd 2024 6 12)) H1).
  - apply (proj2 (X13_sunday_for (ymd 2024 6 9)) H2).
    vm_compute. split; [reflexivity | discriminate].
Defined.

(** ** The pixel loop *)

(** What one step of the row loop does, by the cell it reads. *)
Lemma pixel_dates_row_cell bitmap col wk acc row :
  pixel_dates_row bitmap col wk acc row
  = match bitmap !! row ≫= String.get col with
    | None => Raise IndexError
    | Some ch =>
        if bool_decide (ch = "1"%char)
        then add wk (days (Z.of_nat row)) ≫= fun d => Ok (acc ++ [d])
        else Ok acc
    end.
Proof.
  unfold pixel_dates_row, index, str_index.
  destruct (bitmap !! row) as [line|]; cbn; [|done].
  by destruct (String.get col line).
Qed.

Lemma for_each_ext {S A} (xs : list A) (f g : S -> A -> result S) s :
  (forall s x, x ∈ xs -> f s x = g s x) ->
  for_each xs f s = for_each xs g s.
Proof.
  revert s. induction xs as [|x xs IH]; intros s Hfg; [done|].
  cbn [for_each]. rewrite (Hfg s x) by constructor.
  destruct (g s x) as [s'|e]; [|done]. cbn [mbind result_bind rbind].
  apply IH. intros s0 y Hy. apply Hfg. by constructor.
Qed.

Lemma rows_loop_Ok_inv bitmap col wk rs acc acc' :
  for_each rs (pixel_dates_row bitmap col wk) acc = Ok acc' ->
  Forall (fun row => is_Some (bitmap !! row ≫= String.get col)) rs.
Proof.
  revert acc. induction rs as [|row rs IH]; intros acc; [constructor|].
  cbn [for_each]. rewrite pixel_dates_row_cell.
  destruct (bitmap !! row ≫= String.get col) as [ch|] eqn:Hcell; [|done].
  assert (Hhead : is_Some (bitmap !! row ≫= String.get col))
    by (rewrite Hcell; eauto).
  destruct (bool_decide (ch = "1"%char)).
  - destruct (add wk (days (Z.of_nat row))) as [d|]; [|done].
    cbn [mbind result_bind rbind]. intros Hrun%IH. by constructor.
  - cbn [mbind result_bind rbind]. intros Hrun%IH. by constructor.
Qed.

Lemma rows_loop_missing bitmap col wk rs acc :
  Forall (fun row => valid_ordinal (toordinal wk + Z.of_nat row)) rs ->
  ~ Forall (fun row => is_Some (bitmap !! row ≫= String.get col)) rs ->
  for_each rs (pixel_dates_row bitmap col wk) acc = Raise IndexError.
Proof.
  revert acc. induction rs as [|row rs IH]; intros acc Hvalid Hmiss.
  - destruct Hmiss. constructor.
  - rewrite Forall_cons in Hvalid. destruct Hvalid as [Hrow Hvalid].
    cbn [for_each]. rewrite pixel_dates_row_cell.
    destruct (bitmap !! row ≫= String.get col) as [ch|] eqn:Hcell; [|done].
    assert (Hrest : ~ Forall (fun row => is_Some (bitmap !! row ≫= String.get col)) rs).
    { intros Hrest. apply Hmiss. constructor; [cbv beta; rewrite Hcell; eauto | done]. }
    destruct (bool_decide (ch = "1"%char)).
    + unfold days. rewrite add_valid by done. cbn [mbind result_bind rbind].
      by apply IH.
    + cbn [mbind result_bind rbind]. by apply IH.
Qed.

Lemma pixel_dates_col_Ok_inv bitmap origin acc col acc' :
  pixel_dates_col bitmap origin acc col = Ok acc' -> column_exists bitmap col.
Proof.
  unfold pixel_dates_col.
  destruct (add origin (weeks (Z.of_nat col))) as [wk|]; [|done].
  cbn [mbind result_bind rbind]. apply rows_loop_Ok_inv.
Qed.

Lemma pixel_dates_col_missing bitmap origin acc col :
  0 < toordinal origin + 7 * Z.of_nat col ->
  toordinal origin + 7 * Z.of_nat col + 6 <= MAXORDINAL ->
  ~ column_exists bitmap col ->
  pixel_dates_col bitmap origin acc col = Raise IndexError.
Proof.
  intros Hlo Hhi Hmiss. unfold pixel_dates_col.
  rewrite add_valid by (unfold valid_ordinal, weeks; lia).
  cbn [mbind result_bind rbind]. unfold range. apply rows_loop_missing; [|done].
  apply Forall_forall. intros row Hrow%elem_of_seq.
  unfold valid_ordinal, weeks. cbn [toordinal]. lia.
Qed.

Lemma column_exists_total bitmap origin acc col :
  0 < toordinal origin + 7 * Z.of_nat col ->
  toordinal origin + 7 * Z.of_nat col + 6 <= MAXORDINAL ->
  column_exists bitmap col ->
  pixel_dates_col bitmap origin acc col
  = Ok (acc ++ (cell_date origin <$> column_cells bitmap col)).
Proof.
  intros Hlo Hhi Hcol. apply pixel_dates_col_total; [|done|done].
  intros row Hrow. unfold column_exists in Hcol. rewrite Forall_forall in Hcol.
  apply Hcol, elem_of_seq. lia.
Qed.

Lemma columns_loop bitmap origin (n : nat) :
  0 < toordinal origin ->
  toordinal origin + 7 * Z.of_nat n - 1 <= MAXORDINAL ->
  for_each (seq 0 n) (pixel_dates_col bitmap origin) []
  = if decide (Forall (column_exists bitmap) (seq 0 n))
    then Ok (planned bitmap n origin) else Raise IndexError.
Proof.
  intros Hlo. induction n as [|n IH]; intros Hhi.
  - rewrite decide_True by constructor. reflexivity.
  - rewrite seq_S, for_each_app, IH by lia. cbn [Nat.add].
    destruct (decide (Forall (column_exists bitmap) (seq 0 n))) as [Hpre|Hpre].
    + cbn [mbind result_bind rbind for_each].
      destruct (decide (column_exists bitmap n)) as [Hn|Hn].
      * rewrite column_exists_total by (done || lia).
        rewrite decide_True by (apply Forall_app; split; [done | by constructor]).
        cbn [mbind result_bind rbind]. by rewrite planned_S.
      * rewrite pixel_dates_col_missing by (done || lia).
        rewrite decide_False; [done|].
        intros [_ H]%Forall_app. by apply Forall_inv in H.
    + rewrite decide_False; [done|]. by intros [H _]%Forall_app.
Qed.

Lemma columns_exist_iff bitmap (W : nat) :
  Forall (column_exists bitmap) (seq 0 W) <->
  forall row col, (row < 7)%nat -> (col < W)%nat ->
    is_Some (bitmap !! row ≫= String.get col).
Proof.
  unfold column_exists. rewrite Forall_forall. split.
  - intros H row col Hrow Hcol.
    specialize (H col). rewrite Forall_forall in H.
    apply H; apply elem_of_seq; lia.
  - intros H col Hcol%elem_of_seq. apply Forall_forall.
    intros row Hrow%elem_of_seq. apply H; lia.
Qed.

Lemma pixel_dates_Ok_cells bitmap W origin ds :
  pixel_dates bitmap W origin = Ok ds ->
  Forall (column_exists bitmap) (seq 0 W).
Proof.
  unfold pixel_dates, range. revert ds. induction W as [|n IH]; intros ds.
  - constructor.
  - rewrite seq_S, for_each_app. cbn [Nat.add].
    destruct (for_each (seq 0 n) _ []) as [acc|]; [|done].
    cbn [mbind result_bind rbind for_each].
    destruct (pixel_dates_col bitmap origin acc n) as [acc'|] eqn:Hcol; [|done].
    intros _. apply Forall_app. split; [by eapply IH|].
    constructor; [by eapply pixel_dates_col_Ok_inv | constructor].
Qed.

(** X14. With the grid on the calendar, the pixel loop returns its dates
    when every cell of rows 0 to 6 and columns 0 to W - 1 exists, and raises
    IndexError when one of them is missing: a bitmap of fewer than seven
    rows, or a row shorter than the width. *)
Theorem X14_missing_cell_is_an_index_error bitmap W origin :
  representable origin W ->
  ((forall row col, (row < 7)%nat -> (col < W)%nat ->
      is_Some (bitmap !! row ≫= String.get col)) ->
   pixel_dates bitmap W origin = Ok (planned bitmap W origin)) /\
  ((exists row col, (row < 7)%nat /\ (col < W)%nat /\
      bitmap !! row ≫= String.get col = None) ->
   pixel_dates bitmap W origin = Raise IndexError).
Proof.
  intros [Hlo Hhi]. unfold pixel_dates, range.
  rewrite columns_loop by done. split.
  - intros Hcells. by rewrite decide_True by by apply columns_exist_iff.
  - intros (row & col & Hrow & Hcol & Hnone).
    rewrite decide_False; [done|]. intros Hall.
    rewrite columns_exist_iff in Hall. specialize (Hall row col Hrow Hcol).
    rewrite Hnone in Hall. by destruct Hall.
Qed.

Lemma X14_witness :
  representable (ymd 2024 1 7) 5 /\
  pixel_dates bitmap_A 5 (ymd 2024 1 7)
  = Ok (planned bitmap_A 5 (ymd 2024 1 7)) /\
  pixel_dates ["01110"; "10001"; "10001"; "1111"; "10001"; "10001"; "10001"] 5
    (ymd 2024 1 7) = Raise IndexError /\
  pixel_dates ["01110"; "10001"; "10001"; "11111"; "10001"; "10001"] 5
    (ymd 2024 1 7) = Raise IndexError.
Proof.
  assert (Hrep : representable (ymd 2024 1 7) 5)
    by (vm_compute; split; [reflexivity | discriminate]).
  split; [exact Hrep|]. split_and!.
  - apply (proj1 (X14_missing_cell_is_an_index_error bitmap_A 5 _ Hrep)).
    intros row col Hrow Hcol.
    do 7 (destruct row as [|row]; [do 5 (destruct col as [|col]; [eexists; reflexivity|]); lia|]).
    lia.
  - apply (proj2 (X14_missing_cell_is_an_index_error _ 5 _ Hrep)).
    exists 3%nat, 4%nat. split; [lia|]. split; [lia | reflexivity].
  - apply (proj2 (X14_missing_cell_is_an_index_error _ 5 _ Hrep)).
    exists 6%nat, 0%nat. split; [lia|]. split; [lia | reflexivity].
Defined.

(** X15. The pixel loop reads rows 0 to 6 and columns 0 to W - 1 only:
    two bitmaps that agree on these cells give the same result, whatever
    further rows or columns either has. *)
Theorem X15_only_the_grid_is_read bitmap bitmap' W origin :
  (forall row col, (row < 7)%nat -> (col < W)%nat ->
     bitmap !! row ≫= String.get col = bitmap' !! row ≫= String.get col) ->
  pixel_dates bitmap W origin = pixel_dates bitmap' W origin.
Proof.
  intros Hcells. unfold pixel_dates, range.
  apply for_each_ext. intros acc col Hcol%elem_of_seq.
  unfold pixel_dates_col.
  destruct (add origin (weeks (Z.of_nat col))) as [wk|]; [|done].
  cbn [mbind result_bind rbind]. unfold range.
  apply for_each_ext. intros acc' row Hrow%elem_of_seq.
  rewrite !pixel_dates_row_cell, Hcells by lia. done.
Qed.

Lemma X15_witness :
  pixel_dates bitmap_A 5 (ymd 2024 1 7)
  = pixel_dates ["011101"; "10001"; "100011"; "11111"; "10001"; "10001";
                 "100010"; "11111"; "1"] 5 (ymd 2024 1 7).
Proof.
  apply (X15_only_the_grid_is_read bitmap_A _ 5 (ymd 2024 1 7)).
  intros row col Hrow Hcol.
  do 7 (destruct row as [|row]; [do 5 (destruct col as [|col]; [reflexivity|]); lia|]).
  lia.
Defined.

Lemma planned_shift bitmap W origin origin' k :
  toordinal origin' = toordinal origin + 7 * k ->
  planned bitmap W origin'
  = (fun d => Date (toordinal d + 7 * k)) <$> planned bitmap W origin.
Proof.
  intros Hk. unfold planned. rewrite <- list_fmap_compose.
  apply list_fmap_ext. intros _ cell _. unfold cell_date. cbn. f_equal. lia.
Qed.

(** X16. Moving the origin by k weeks moves every emitted date by k
    weeks: if the loop returns dates for one origin, then for the origin k
    weeks away, its grid on the calendar, it returns the same dates moved by
    7 k days. *)
Theorem X16_origin_shift bitmap W origin origin' k ds :
  pixel_dates bitmap W origin = Ok ds ->
  add origin (weeks k) = Ok origin' -> representable origin' W ->
  pixel_dates bitmap W origin'
  = Ok ((fun d => Date (toordinal d + 7 * k)) <$> ds).
Proof.
  intros Hrun [_ ->]%add_Ok Hrep.
  pose proof (pixel_dates_Ok_cells _ _ _ _ Hrun) as Hcells.
  apply pixel_dates_sound in Hrun as ->.
  destruct Hrep as [Hlo Hhi]. unfold pixel_dates, range.
  rewrite columns_loop, decide_True by done.
  f_equal. by apply planned_shift.
Qed.

Lemma X16_witness :
  pixel_dates bitmap_A 5 (ymd 2024 1 7 ) = Ok (planned bitmap_A 5 (ymd 2024 1 7)) /\
  add (ymd 2024 1 7) (weeks 3) = Ok (ymd 2024 1 28) /\
  representable (ymd 2024 1 28) 5 /\
  pixel_dates bitmap_A 5 (ymd 2024 1 28)
  = Ok ((fun d => Date (toordinal d + 7 * 3)) <$> planned bitmap_A 5 (ymd 2024 1 7)).
Proof.
  assert (Hrun : pixel_dates bitmap_A 5 (ymd 2024 1 7)
                 = Ok (planned bitmap_A 5 (ymd 2024 1 7)))
    by (vm_compute; reflexivity).
  assert (Hadd : add (ymd 2024 1 7) (weeks 3) = Ok (ymd 2024 1 28))
    by (vm_compute; reflexivity).
  assert (Hrep : representable (ymd 2024 1 28) 5)
    by (vm_compute; split; [reflexivity | discriminate]).
  split; [exact Hrun|]. split; [exact Hadd|]. split; [exact Hrep|].
  exact (X16_origin_shift bitmap_A 5 _ _ 3 _ Hrun Hadd Hrep).
Defined.

(** ** Runs of [main] *)

Lemma pbind_assoc {A B C} (p : prog A) (k : A -> prog B) (h : B -> prog C) :
  (p ≫= k) ≫= h = p ≫= fun a => k a ≫= h.
Proof.
  destruct p as [t [a|e]]; [|done]. cbn [mbind prog_bind pbind].
  destruct (k a) as [t1 [b|e]]; cbn [mbind prog_bind pbind]; [|done].
  destruct (h b) as [t2 r]. by rewrite app_assoc.
Qed.

Lemma pbind_trace_Ok {A B} (t : list event) (a : A) (k : A -> prog B) :
  ((t, Ok a) : prog A) ≫= k = (t ++ (k a).1, (k a).2).
Proof. cbn [mbind prog_bind pbind]. by destruct (k a). Qed.

Lemma for_app {A} (xs ys : list A) (body : A -> prog unit) :
  for_ (xs ++ ys) body = for_ xs body ≫= fun _ => for_ ys body.
Proof.
  induction xs as [|x xs IH]; cbn [for_ app].
  - cbn [mret prog_ret mbind prog_bind pbind]. by destruct (for_ ys body).
  - rewrite IH. by rewrite pbind_assoc.
Qed.

Lemma for_fmap {A B} (h : A -> B) (xs : list A) (body : B -> prog unit) :
  for_ (h <$> xs) body = for_ xs (fun x => body (h x)).
Proof. induction xs as [|x xs IH]; [done|]. cbn [for_ fmap list_fmap]. by rewrite <- IH. Qed.

(** The two nested loops over dates and parts are one loop over the
    commit plan. *)
Lemma for_commit_plan (ds : list date) (n : Z) (body : date -> Z -> prog unit) :
  for_ ds (fun d => for_ (range (Z.to_nat n)) (fun i => body d (Z.of_nat i + 1)))
  = for_ (commit_plan ds n) (fun c => body c.1 c.2).
Proof.
  unfold commit_plan, range. induction ds as [|d ds IH]; [done|].
  cbn [for_ mbind list_bind]. rewrite for_app, for_fmap, <- IH. done.
Qed.

Lemma for_all_Ok {A} (xs : list A) (body : A -> prog unit) (ev : A -> event) :
  (forall x, x ∈ xs -> body x = ([ev x], Ok tt)) ->
  for_ xs body = (ev <$> xs, Ok tt).
Proof.
  induction xs as [|x xs IH]; intros Hbody; [done|].
  cbn [for_]. rewrite (Hbody x) by constructor.
  rewrite IH by (intros y Hy; apply Hbody; by constructor). done.
Qed.

Lemma for_first_failure {A} (pre post : list A) (x : A) (body : A -> prog unit)
    (ev : A -> event) (tx : list event) (e : exn) :
  (forall y, y ∈ pre -> body y = ([ev y], Ok tt)) ->
  body x = (tx, Raise e) ->
  for_ (pre ++ x :: post) body = ((ev <$> pre) ++ tx, Raise e).
Proof.
  intros Hpre Hx. rewrite for_app, (for_all_Ok pre body ev Hpre).
  cbn [for_]. rewrite Hx. cbn [mbind prog_bind pbind]. done.
Qed.

Lemma length_commit_plan ds n :
  length (commit_plan ds n) = (length ds * Z.to_nat n)%nat.
Proof.
  unfold commit_plan. induction ds as [|d ds IH]; [done|].
  cbn [mbind list_bind length]. rewrite length_app, length_fmap, length_seq, IH.
  lia.
Qed.

Lemma elem_of_commit_plan ds n d part :
  (d, part) ∈ commit_plan ds n <-> d ∈ ds /\ 1 <= part <= n.
Proof.
  unfold commit_plan. rewrite list_elem_of_bind. split.
  - intros (d' & Hin & Hd). apply list_elem_of_fmap in Hin as (i & [= -> ->] & Hi).
    apply elem_of_seq in Hi. split; [done | lia].
  - intros (Hd & Hpart). exists d. split; [|done].
    apply list_elem_of_fmap. exists (Z.to_nat (part - 1)). split.
    + f_equal. lia.
    + apply elem_of_seq. lia.
Qed.

(** What [main] does up to the prompt, in a run that gets there. *)
Lemma main_with_to_prompt strptime message a w bitmap row0 t cws start :
  in_work_tree w = true -> dry_run a = false ->
  build_bitmap message 1 = Ok bitmap -> index bitmap 0 = Ok row0 ->
  let W := String.length row0 in
  let ds := planned bitmap W start in
  (0 < W)%nat ->
  resolve_start strptime a w W = (t, Ok (cws, start)) ->
  representable start W ->
  main_with strptime message a w
  = ((run_header message a W t cws start (length ds) ++ [Prompt], Ok tt) : prog unit)
    ≫= fun _ =>
      if bool_decide (lower (confirm w) ≠ "y") then print MsgAborted
      else
        for_ (commit_plan ds (commits_per_pixel a)) (fun c =>
          make_commit_for_date w c.1 c.2 (commits_per_pixel a))
        ≫= fun _ => print MsgAllCreated.
Proof.
  intros Hrepo Hdry Hbitmap Hrow0 W ds HW Hstart Hrep.
  destruct (build_bitmap_Ok_inv _ _ _ Hbitmap) as [Hall ->].
  destruct (layout_grid _ 1 Hall) as (row0' & Hrow0' & Hgrid).
  assert (row0' = row0) as ->
    by (unfold index in Hrow0; rewrite Hrow0' in Hrow0; by injection Hrow0).
  unfold main_with, ensure_git_repo. rewrite Hrepo, Hdry. run_step.
  rewrite Hbitmap. run_step. rewrite Hrow0. run_step. fold W. rewrite Hstart.
  run_step. unfold weeks. rewrite add_valid.
  2:{ destruct Hrep. unfold valid_ordinal. lia. }
  run_step. rewrite pixel_dates_total by done. run_step. fold ds.
  rewrite (for_commit_plan ds (commits_per_pixel a)
             (fun d part => make_commit_for_date w d part (commits_per_pixel a))).
  unfold run_header. rewrite <- !app_assoc. cbn [app].
  destruct (bool_decide (lower (confirm w) ≠ "y")); run_step.
  - rewrite <- !app_assoc. reflexivity.
  - destruct (for_ (commit_plan ds (commits_per_pixel a)) _) as [tc [[]|e]];
      run_step; rewrite <- ?app_assoc; reflexivity.
Qed.

(** [confirm.lower() != "y"] lets exactly the answers "y" and "Y" through. *)
Lemma lower_y (s : string) : lower s = "y" <-> s = "y" \/ s = "Y".
Proof.
  assert (Hchar : forall c, ascii_lower c = "y"%char <-> c = "y"%char \/ c = "Y"%char).
  { intros c.
    assert (H : bool_decide (ascii_lower c = "y"%char)
                = bool_decide (c = "y"%char \/ c = "Y"%char))
      by (destruct c as [[] [] [] [] [] [] [] []]; vm_compute; reflexivity).
    split; intros Hx.
    - apply (bool_decide_unpack _). rewrite <- H. by apply bool_decide_pack.
    - apply (bool_decide_unpack _). rewrite H. by apply bool_decide_pack. }
  destruct s as [|c [|c' s']]; cbn [lower].
  - split; [discriminate | intros [H|H]; discriminate H].
  - split.
    + intros [= Hc]. apply Hchar in Hc as [->| ->]; auto.
    + intros [[= ->]|[= ->]]; reflexivity.
  - split; [discriminate | intros [H|H]; discriminate H].
Qed.

Lemma make_commit_for_date_Ok w dt part total :
  commit_ok w dt part = true ->
  make_commit_for_date w dt part total = ([GitCommit dt part total], Ok tt).
Proof. intros H. unfold make_commit_for_date. by rewrite H. Qed.

Lemma make_commit_for_date_fails w dt part total :
  commit_ok w dt part = false ->
  make_commit_for_date w dt part total
  = ([GitCommit dt part total; Stderr (ErrCommitFailed dt)], Raise (SystemExit 1)).
Proof. intros H. unfold make_commit_for_date. by rewrite H. Qed.

Lemma built_bitmap_grid message gap bitmap row0 :
  build_bitmap message gap = Ok bitmap -> index bitmap 0 = Ok row0 ->
  grid bitmap (String.length row0).
Proof.
  intros [Hall ->]%build_bitmap_Ok_inv Hrow0.
  destruct (layout_grid _ gap Hall) as (row0' & Hrow0' & Hgrid).
  unfold index in Hrow0. rewrite Hrow0' in Hrow0. by injection Hrow0 as <-.
Qed.


(** X18. A confirmed run in which every commit succeeds asks git, after
    the prompt, for the commits of the plan and no others: for each planned
    date in order, parts 1 to n, n the number of commits per pixel; that is
    pixels times n commits (none when n is 0 or negative). It then prints
    "All commits created" and ends normally. *)
Theorem X18_confirmed_run_commits_the_plan
    strptime message a w bitmap row0 t cws start :
  in_work_tree w = true -> dry_run a = false ->
  confirm w = "y" \/ confirm w = "Y" ->
  build_bitmap message 1 = Ok bitmap -> index bitmap 0 = Ok row0 ->
  let W := String.length row0 in
  let ds := planned bitmap W start in
  let n := commits_per_pixel a in
  (0 < W)%nat ->
  resolve_start strptime a w W = (t, Ok (cws, start)) ->
  representable start W ->
  (forall d part, d ∈ ds -> 1 <= part <= n -> commit_ok w d part = true) ->
  main_with strptime message a w
  = (run_header message a W t cws start (length ds) ++ [Prompt] ++
     ((fun c => GitCommit c.1 c.2 n) <$> commit_plan ds n) ++
     [Stdout MsgAllCreated],
     Ok tt) /\
  length (commit_plan ds n) = (length ds * Z.to_nat n)%nat.
Proof.
  intros Hrepo Hdry Hyes%lower_y Hbitmap Hrow0 W ds n HW Hstart Hrep Hok.
  split; [|apply length_commit_plan].
  rewrite (main_with_to_prompt _ _ _ _ _ _ _ _ _ Hrepo Hdry Hbitmap Hrow0 HW Hstart Hrep).
  fold W ds n. rewrite bool_decide_eq_false_2 by (intros H; by apply H).
  rewrite (for_all_Ok _ _ (fun c => GitCommit c.1 c.2 n)).
  - run_step. by rewrite <- !app_assoc.
  - intros [d part] [Hd Hpart]%elem_of_commit_plan.
    apply make_commit_for_date_Ok. by apply Hok.
Qed.

(** X19. When a commit fails, the run stops there: git has been asked for
    the commits of the plan up to the failing one and for none after it, the
    failure is reported on stderr, and the run exits with status 1. *)
Theorem X19_first_failing_commit_ends_the_run
    strptime message a w bitmap row0 t cws start pre d part post :
  in_work_tree w = true -> dry_run a = false ->
  confirm w = "y" \/ confirm w = "Y" ->
  build_bitmap message 1 = Ok bitmap -> index bitmap 0 = Ok row0 ->
  let W := String.length row0 in
  let ds := planned bitmap W start in
  let n := commits_per_pixel a in
  (0 < W)%nat ->
  resolve_start strptime a w W = (t, Ok (cws, start)) ->
  representable start W ->
  commit_plan ds n = pre ++ (d, part) :: post ->
  (forall c, c ∈ pre -> commit_ok w c.1 c.2 = true) ->
  commit_ok w d part = false ->
  main_with strptime message a w
  = (run_header message a W t cws start (length ds) ++ [Prompt] ++
     ((fun c => GitCommit c.1 c.2 n) <$> pre) ++
     [GitCommit d part n; Stderr (ErrCommitFailed d)],
     Raise (SystemExit 1)).
Proof.
  intros Hrepo Hdry Hyes%lower_y Hbitmap Hrow0 W ds n HW Hstart Hrep Hplan Hpre Hfail.
  rewrite (main_with_to_prompt _ _ _ _ _ _ _ _ _ Hrepo Hdry Hbitmap Hrow0 HW Hstart Hrep).
  fold W ds n. rewrite bool_decide_eq_false_2 by (intros H; by apply H).
  rewrite Hplan.
  rewrite (for_first_failure pre post (d, part) _ (fun c => GitCommit c.1 c.2 n)
             [GitCommit d part n; Stderr (ErrCommitFailed d)] (SystemExit 1)).
  - run_step. by rewrite <- !app_assoc.
  - intros c Hc. apply make_commit_for_date_Ok. by apply Hpre.
  - by apply make_commit_for_date_fails.
Qed.

(** X20. Any answer at the prompt other than "y" or "Y" ends the run
    normally with "Aborted." and without a commit. *)
Theorem X20_declined_run strptime message a w bitmap row0 t cws start :
  in_work_tree w = true -> dry_run a = false ->
  confirm w <> "y" -> confirm w <> "Y" ->
  build_bitmap message 1 = Ok bitmap -> index bitmap 0 = Ok row0 ->
  let W := String.length row0 in
  let ds := planned bitmap W start in
  (0 < W)%nat ->
  resolve_start strptime a w W = (t, Ok (cws, start)) ->
  representable start W ->
  main_with strptime message a w
  = (run_header message a W t cws start (length ds)
     ++ [Prompt; Stdout MsgAborted], Ok tt).
Proof.
  intros Hrepo Hdry Hy HY Hbitmap Hrow0 W ds HW Hstart Hrep.
  rewrite (main_with_to_prompt _ _ _ _ _ _ _ _ _ Hrepo Hdry Hbitmap Hrow0 HW Hstart Hrep).
  fold W ds. rewrite bool_decide_eq_true_2 by (rewrite lower_y; tauto).
  run_step. by rewrite <- !app_assoc.
Qed.


Lemma X18_witness :
  let a := Args 2 (Some "2024-01-07") false in
  let w := Env true (ymd 2024 6 12) "Y" (fun _ _ => true) in
  let ds := planned bitmap_bang 5 (ymd 2024 1 7) in
  main_with read_iso_date "!" a w
  = (run_header "!" a 5 [] (ymd 2024 6 9) (ymd 2024 1 7) (length ds) ++ [Prompt] ++
     ((fun c => GitCommit c.1 c.2 2) <$> commit_plan ds 2) ++
     [Stdout MsgAllCreated],
     Ok tt) /\
  length (commit_plan ds 2) = (length ds * Z.to_nat 2)%nat.
Proof.
  intros a w ds.
  apply (X18_confirmed_run_commits_the_plan read_iso_date "!" a w bitmap_bang
           "00100" [] (ymd 2024 6 9) (ymd 2024 1 7)).
  - reflexivity.
  - reflexivity.
  - right. reflexivity.
  - vm_compute. reflexivity.
  - reflexivity.
  - cbn. lia.
  - vm_compute. reflexivity.
  - vm_compute. split; [reflexivity | discriminate].
  - reflexivity.
Defined.

Lemma X19_witness :
  let a := Args 2 (Some "2024-01-07") false in
  let w := Env true (ymd 2024 6 12) "y"
             (fun d part => negb (bool_decide (d = ymd 2024 1 22 /\ part = 2))) in
  let ds := planned bitmap_bang 5 (ymd 2024 1 7) in
  main_with read_iso_date "!" a w
  = (run_header "!" a 5 [] (ymd 2024 6 9) (ymd 2024 1 7) (length ds) ++ [Prompt] ++
     [GitCommit (ymd 2024 1 21) 1 2; GitCommit (ymd 2024 1 21) 2 2;
      GitCommit (ymd 2024 1 22) 1 2] ++
     [GitCommit (ymd 2024 1 22) 2 2; Stderr (ErrCommitFailed (ymd 2024 1 22))],
     Raise (SystemExit 1)).
Proof.
  intros a w ds.
  apply (X19_first_failing_commit_ends_the_run read_iso_date "!" a w bitmap_bang
           "00100" [] (ymd 2024 6 9) (ymd 2024 1 7)
           [(ymd 2024 1 21, 1); (ymd 2024 1 21, 2); (ymd 2024 1 22, 1)]
           (ymd 2024 1 22) 2
           (drop 4 (commit_plan (planned bitmap_bang 5 (ymd 2024 1 7)) 2))).
  - reflexivity.
  - reflexivity.
  - left. reflexivity.
  - vm_compute. reflexivity.
  - reflexivity.
  - cbn. lia.
  - vm_compute. reflexivity.
  - vm_compute. split; [reflexivity | discriminate].
  - vm_compute. reflexivity.
  - intros c Hc. rewrite !elem_of_cons, elem_of_nil in Hc.
    destruct Hc as [->|[->|[->|[]]]]; vm_compute; reflexivity.
  - vm_compute. reflexivity.
Defined.

Lemma X20_witness :
  let a := Args 2 (Some "2024-01-07") false in
  let w := Env true (ymd 2024 6 12) "yes" (fun _ _ => true) in
  let ds := planned bitmap_bang 5 (ymd 2024 1 7) in
  main_with read_iso_date "!" a w
  = (run_header "!" a 5 [] (ymd 2024 6 9) (ymd 2024 1 7) (length ds)
     ++ [Prompt; Stdout MsgAborted], Ok tt).
Proof.
  intros a w ds.
  apply (X20_declined_run read_iso_date "!" a w bitmap_bang
           "00100" [] (ymd 2024 6 9) (ymd 2024 1 7)).
  - reflexivity.
  - reflexivity.
  - discriminate.
  - discriminate.
  - vm_compute. reflexivity.
  - reflexivity.
  - cbn. lia.
  - vm_compute. reflexivity.
  - vm_compute. split; [reflexivity | discriminate].
Defined.

(** *** What a run never does *)

Lemma bind_events {A B} (P : event -> Prop) (p : prog A) (k : A -> prog B) :
  Forall P p.1 -> (forall a, p.2 = Ok a -> Forall P (k a).1) ->
  Forall P (p ≫= k).1.
Proof.
  destruct p as [t [a|e]]; cbn [fst snd mbind prog_bind pbind]; [|done].
  intros Ht Hk. specialize (Hk a eq_refl). destruct (k a) as [t' r].
  cbn [fst] in *. by apply Forall_app.
Qed.

Lemma for_events {A} (P : event -> Prop) (xs : list A) (body : A -> prog unit) :
  (forall x, x ∈ xs -> Forall P (body x).1) -> Forall P (for_ xs body).1.
Proof.
  induction xs as [|x xs IH]; intros Hbody; [constructor|].
  cbn [for_]. apply bind_events; [apply Hbody; constructor|].
  intros _ _. apply IH. intros y Hy. apply Hbody. by constructor.
Qed.

Lemma bind_outcome {A B} (Q : exn -> Prop) (p : prog A) (k : A -> prog B) :
  (forall e, p.2 = Raise e -> Q e) ->
  (forall a, p.2 = Ok a -> forall e, (k a).2 = Raise e -> Q e) ->
  forall e, (p ≫= k).2 = Raise e -> Q e.
Proof.
  destruct p as [t [a|e0]]; cbn [fst snd mbind prog_bind pbind];
    [|intros H _ e [= <-]; by apply H].
  intros _ Hk. specialize (Hk a eq_refl). destruct (k a) as [t' r]. exact Hk.
Qed.

Lemma for_outcome {A} (Q : exn -> Prop) (xs : list A) (body : A -> prog unit) :
  (forall x, x ∈ xs -> forall e, (body x).2 = Raise e -> Q e) ->
  forall e, (for_ xs body).2 = Raise e -> Q e.
Proof.
  induction xs as [|x xs IH]; intros Hbody; [done|].
  cbn [for_]. apply bind_outcome; [apply Hbody; constructor|].
  intros _ _. apply IH. intros y Hy. apply Hbody. by constructor.
Qed.

Lemma for_each_Raise {S A} (Q : exn -> Prop) (xs : list A)
    (body : S -> A -> result S) s e :
  (forall s x e, x ∈ xs -> body s x = Raise e -> Q e) ->
  for_each xs body s = Raise e -> Q e.
Proof.
  revert s. induction xs as [|x xs IH]; intros s Hbody; [done|].
  cbn [for_each]. destruct (body s x) as [s'|e'] eqn:Hx.
  - cbn [mbind result_bind rbind]. apply IH.
    intros s0 y e0 Hy. apply Hbody. by constructor.
  - cbn [mbind result_bind rbind]. intros [= <-]. eapply Hbody; [constructor | done].
Qed.

Lemma add_Raise d k e : add d k = Raise e -> e = OverflowError.
Proof. unfold add. by destruct (_ && _); intros [= <-]. Qed.

Lemma get_sunday_of_week_Raise d e :
  get_sunday_of_week d = Raise e -> e = OverflowError.
Proof. apply add_Raise. Qed.

Lemma default_start_Raise today W e :
  default_start today W = Raise e -> e = OverflowError.
Proof.
  unfold default_start.
  destruct (get_sunday_of_week today) as [cws|e'] eqn:H1; cbn [mbind result_bind rbind].
  - destruct (sub cws _) as [s|e'] eqn:H2; cbn [mbind result_bind rbind]; [done|].
    intros [= <-]. by eapply add_Raise.
  - intros [= <-]. by eapply get_sunday_of_week_Raise.
Qed.

(** On a bitmap with all the cells the loop reads, the pixel loop can only
    fail in the date arithmetic. *)
Lemma pixel_dates_Raise bitmap W origin e :
  Forall (column_exists bitmap) (seq 0 W) ->
  pixel_dates bitmap W origin = Raise e -> e = OverflowError.
Proof.
  intros Hcells. unfold pixel_dates, range.
  revert e. refine (fun e => for_each_Raise (fun e => e = OverflowError) _ _ _ e _).
  intros acc col e' Hcol. unfold pixel_dates_col.
  destruct (add origin (weeks (Z.of_nat col))) as [wk|e0] eqn:Hwk;
    cbn [mbind result_bind rbind].
  2:{ intros [= <-]. by eapply add_Raise. }
  revert e'. refine (fun e' => for_each_Raise (fun e => e = OverflowError) _ _ _ e' _).
  intros acc' row e1 Hrow.
  rewrite pixel_dates_row_cell.
  rewrite Forall_forall in Hcells. specialize (Hcells col Hcol).
  unfold column_exists in Hcells. rewrite Forall_forall in Hcells.
  destruct (Hcells row Hrow) as [ch ->].
  destruct (bool_decide (ch = "1"%char)); [|done].
  destruct (add wk (days (Z.of_nat row))) as [d|e2] eqn:Hd;
    cbn [mbind result_bind rbind]; [done|].
  intros [= <-]. by eapply add_Raise.
Qed.

Lemma resolve_start_events strptime a w W (P : event -> Prop) :
  (forall t, P (Stdout t)) -> (forall t, P (Stderr t)) ->
  Forall P (resolve_start strptime a w W).1.
Proof.
  intros Hout Herr. unfold resolve_start.
  apply bind_events; [constructor|]. intros [cws default] _.
  destruct (start_sunday a) as [s|]; [|constructor].
  destruct (bool_decide (s ≠ "")); [|constructor].
  destruct (strptime s) as [start|].
  - destruct (bool_decide (weekday start ≠ 6)); [|constructor].
    apply bind_events; [repeat constructor; apply Hout|]. intros _ _.
    apply bind_events; [constructor|]. intros start' _. constructor.
  - apply bind_events; [repeat constructor; apply Herr|]. intros _ _. constructor.
Qed.

Lemma resolve_start_outcome strptime a w W :
  forall e, (resolve_start strptime a w W).2 = Raise e ->
    e = SystemExit 1 \/ e = OverflowError.
Proof.
  set (Q := fun e => e = SystemExit 1 \/ e = OverflowError).
  unfold resolve_start. apply (bind_outcome Q).
  { intros e' He. right. cbn [lift snd] in He. by eapply default_start_Raise. }
  intros [cws default] _.
  destruct (start_sunday a) as [s|]; [|done].
  destruct (bool_decide (s ≠ "")); [|done].
  destruct (strptime s) as [start|].
  - destruct (bool_decide (weekday start ≠ 6)); [|done].
    apply (bind_outcome Q); [done|]. intros _ _.
    apply (bind_outcome Q); [|done]. intros e' He. right.
    cbn [lift snd] in He. by eapply get_sunday_of_week_Raise.
  - apply (bind_outcome Q); [done|]. intros _ _ e' [= <-]. by left.
Qed.

Ltac leaf_events := cbn [emit print eprint lift sys_exit mret prog_ret fst];
  repeat constructor.

(** X21. Whatever the message, the command line and the surroundings,
    [main] asks git for a commit only inside a repository, outside preview
    mode and after the answer "y" or "Y", and then only for parts 1 to the
    number of commits per pixel; and it prompts only inside a repository and
    outside preview mode. *)
Theorem X21_no_commit_without_consent strptime message a w e :
  e ∈ (main_with strptime message a w).1 -> consented a w e.
Proof.
  revert e. apply Forall_forall. unfold main_with.
  apply bind_events.
  { unfold ensure_git_repo. apply bind_events; [leaf_events|]. intros _ _.
    destruct (in_work_tree w); [leaf_events|].
    apply bind_events; leaf_events. }
  intros u Hrepo.
  assert (Hin : in_work_tree w = true).
  { unfold ensure_git_repo in Hrepo. by destruct (in_work_tree w). }
  apply bind_events; [leaf_events|]. intros bitmap _.
  apply bind_events; [leaf_events|]. intros row0 _. cbv zeta.
  apply bind_events; [leaf_events|]. intros _ _.
  apply bind_events; [by apply resolve_start_events|]. intros [cws start] _.
  apply bind_events; [leaf_events|]. intros _ _.
  apply bind_events; [leaf_events|]. intros end_week _.
  apply bind_events; [leaf_events|]. intros _ _.
  apply bind_events; [destruct (dry_run a); leaf_events|]. intros _ _.
  apply bind_events; [leaf_events|]. intros ds _.
  apply bind_events; [leaf_events|]. intros _ _.
  destruct (dry_run a) eqn:Hdry.
  - apply bind_events; [|intros _ _; leaf_events].
    apply for_events. intros d _. leaf_events.
  - apply bind_events.
    { cbn [emit fst]. constructor; [|constructor]. by split. }
    intros _ _. case_bool_decide as Hyes; [leaf_events|].
    assert (Hconfirm : confirm w = "y" \/ confirm w = "Y").
    { apply lower_y. by destruct (decide (lower (confirm w) = "y")). }
    apply bind_events; [|intros _ _; leaf_events].
    apply for_events. intros d _. apply for_events. intros i Hi%elem_of_seq.
    unfold make_commit_for_date. apply bind_events.
    + cbn [emit fst]. constructor; [|constructor]. cbn [consented].
      split_and!; [done | done | done | lia | lia | done].
    + intros _ _. destruct (commit_ok w d _); [leaf_events|].
      apply bind_events; leaf_events.
Qed.

Lemma X21_witness :
  let a := Args 2 (Some "2024-01-07") false in
  let w := Env true (ymd 2024 6 12) "Y" (fun _ _ => true) in
  GitCommit (ymd 2024 1 21) 1 2 ∈ (main_with read_iso_date "!" a w).1 /\
  consented a w (GitCommit (ymd 2024 1 21) 1 2).
Proof.
  intros a w.
  assert (Hin : GitCommit (ymd 2024 1 21) 1 2 ∈ (main_with read_iso_date "!" a w).1).
  { vm_compute. do 6 apply list_elem_of_further. apply list_elem_of_here. }
  split; [exact Hin|].
  exact (X21_no_commit_without_consent read_iso_date "!" a w _ Hin).
Defined.

(** X22. A run of [main] ends normally, or with exit status 1, or with an
    OverflowError of the date arithmetic, or, for a message with a character
    outside the font, with the ValueError naming such a character; never
    with an IndexError. For the message of the script, "Pizza!", the
    ValueError cannot occur either. *)
Theorem X22_how_a_run_can_end strptime a w :
  (forall message e, (main_with strptime message a w).2 = Raise e ->
     e = SystemExit 1 \/ e = OverflowError \/
     exists ch, e = ValueError (NoFontPattern ch) /\
       ch ∈ list_ascii_of_string message /\ FONT !! ch = None) /\
  (forall e, (main strptime a w).2 = Raise e ->
     e = SystemExit 1 \/ e = OverflowError).
Proof.
  assert (Hgen : forall message e,
    (main_with strptime message a w).2 = Raise e ->
    e = SystemExit 1 \/ e = OverflowError \/
    exists ch, e = ValueError (NoFontPattern ch) /\
      ch ∈ list_ascii_of_string message /\ FONT !! ch = None).
  { intros message.
    set (Q := fun e => e = SystemExit 1 \/ e = OverflowError \/
      exists ch, e = ValueError (NoFontPattern ch) /\
        ch ∈ list_ascii_of_string message /\ FONT !! ch = None).
    assert (Hexit : Q (SystemExit 1)) by by left.
    assert (Hover : Q OverflowError) by (right; by left).
    unfold main_with. apply (bind_outcome Q).
    { unfold ensure_git_repo. apply (bind_outcome Q); [done|]. intros _ _.
      destruct (in_work_tree w); [done|].
      apply (bind_outcome Q); [done|]. by intros _ _ e [= <-]. }
    intros _ _. apply (bind_outcome Q).
    { intros e He. cbn [lift snd] in He. right. right.
      destruct (first_unsupported (list_ascii_of_string message))
        as [Hall|(pre & ch & post & Hsplit & Hpre & Hch)].
      - rewrite build_bitmap_ok in He by done. discriminate He.
      - rewrite (build_bitmap_first_unsupported _ _ _ _ _ Hsplit Hpre Hch) in He.
        injection He as <-. exists ch. split; [done|]. split.
        + rewrite Hsplit. apply elem_of_app. right. constructor.
        + by apply not_supported_lookup. }
    intros bitmap Hbitmap. cbn [lift snd] in Hbitmap.
    destruct (build_bitmap_Ok_inv _ _ _ Hbitmap) as [Hall Hlayout].
    destruct (layout_grid _ 1 Hall) as (row0 & Hrow0 & Hgrid).
    rewrite <- Hlayout in Hrow0, Hgrid.
    apply (bind_outcome Q).
    { intros e. cbn [lift snd]. unfold index. by rewrite Hrow0. }
    intros row0' Hrow0'. cbn [lift snd] in Hrow0'. unfold index in Hrow0'.
    rewrite Hrow0 in Hrow0'. injection Hrow0' as <-. cbv zeta.
    apply (bind_outcome Q); [done|]. intros _ _.
    apply (bind_outcome Q).
    { intros e [->| ->]%resolve_start_outcome; done. }
    intros [cws start] _.
    apply (bind_outcome Q); [done|]. intros _ _.
    apply (bind_outcome Q).
    { intros e He. cbn [lift snd] in He. by apply add_Raise in He as ->. }
    intros end_week _.
    apply (bind_outcome Q); [done|]. intros _ _.
    apply (bind_outcome Q); [by destruct (dry_run a)|]. intros _ _.
    apply (bind_outcome Q).
    { intros e He. cbn [lift snd] in He.
      apply pixel_dates_Raise in He as ->; [done|].
      apply columns_exist_iff. intros row col Hrow Hcol. by eapply grid_cell. }
    intros ds _.
    apply (bind_outcome Q); [done|]. intros _ _.
    destruct (dry_run a).
    - apply (bind_outcome Q); [|done]. by apply (for_outcome Q).
    - apply (bind_outcome Q); [done|]. intros _ _.
      case_bool_decide; [done|].
      apply (bind_outcome Q); [|done].
      apply (for_outcome Q). intros d _. apply (for_outcome Q). intros i _.
      unfold make_commit_for_date. apply (bind_outcome Q); [done|]. intros _ _.
      destruct (commit_ok w d _); [done|].
      apply (bind_outcome Q); [done|]. by intros _ _ e [= <-]. }
  split; [exact Hgen|].
  intros e [He|[He|(ch & _ & Hin & Hnone)]]%Hgen; [by left | by right |].
  exfalso. cbn in Hin. rewrite !elem_of_cons, elem_of_nil in Hin.
  repeat (destruct Hin as [->|Hin]; [by vm_compute in Hnone|]). destruct Hin.
Qed.

Lemma X22_witness :
  let a := Args 4 (Some "next sunday") false in
  let w := Env true (ymd 2024 6 12) "y" (fun _ _ => true) in
  (main read_iso_date a w).2 = Raise (SystemExit 1) /\
  (SystemExit 1 = SystemExit 1 \/ SystemExit 1 = OverflowError).
Proof.
  intros a w.
  assert (H : (main read_iso_date a w).2 = Raise (SystemExit 1))
    by (vm_compute; reflexivity).
  split; [exact H|].
  exact (proj2 (X22_how_a_run_can_end read_iso_date a w) _ H).
Defined.

(** X23. The handler around the start date catches ValueError only. A
    start date in the first six days of year 1 parses, is no Sunday, and has
    no Sunday of the calendar before it: the run prints the warning and ends
    with an uncaught OverflowError, not with the invalid-date message, and
    without a commit. *)
Theorem X23_start_date_before_first_sunday
    strptime message a w bitmap row0 s start cws default :
  in_work_tree w = true ->
  build_bitmap message 1 = Ok bitmap -> index bitmap 0 = Ok row0 ->
  default_start (today w) (String.length row0) = Ok (cws, default) ->
  start_sunday a = Some s -> s <> "" -> strptime s = Some start ->
  1 <= toordinal start <= 6 ->
  main_with strptime message a w
  = ([GitRevParse; Stdout (MsgBitmapWidth message (String.length row0));
      Stdout WarnNotSunday],
     Raise OverflowError).
Proof.
  intros Hrepo Hbitmap Hrow0 Hdefault Harg Hs Hparse Hrange.
  assert (Hwd : weekday start <> 6)
    by (unfold weekday; Z.to_euclidean_division_equations; lia).
  assert (Hsnap : get_sunday_of_week start = Raise OverflowError).
  { apply get_sunday_of_week_overflow; [unfold valid_ordinal, MAXORDINAL; lia | lia]. }
  unfold main_with, ensure_git_repo, resolve_start. rewrite Hrepo. run_step.
  rewrite Hbitmap. run_step. rewrite Hrow0. run_step.
  rewrite Hdefault, Harg, Hparse. run_step.
  rewrite (bool_decide_eq_true_2 (s <> "")) by done.
  rewrite (bool_decide_eq_true_2 (weekday start <> 6)) by done.
  run_step. rewrite Hsnap. reflexivity.
Qed.

Lemma X23_witness :
  let a := Args 4 (Some "0001-01-03") false in
  let w := Env true (ymd 2024 6 12) "y" (fun _ _ => true) in
  read_iso_date "0001-01-03" = Some (ymd 1 1 3) /\
  main_with read_iso_date "A" a w
  = ([GitRevParse; Stdout (MsgBitmapWidth "A" (String.length "01110"));
      Stdout WarnNotSunday],
     Raise OverflowError).
Proof.
  intros a w. split; [reflexivity|].
  apply (X23_start_date_before_first_sunday read_iso_date "A" a w bitmap_A
           "01110" "0001-01-03" (ymd 1 1 3) (ymd 2024 6 9) (ymd 2024 5 12)).
  - reflexivity.
  - vm_compute. reflexivity.
  - reflexivity.
  - vm_compute. reflexivity.
  - reflexivity.
  - discriminate.
  - reflexivity.
  - vm_compute. split; discriminate.
Defined.

(** ** Counting pixels *)

Lemma count_ones_app (a b : string) :
  count_ones (a +:+ b) = (count_ones a + count_ones b)%nat.
Proof.
  unfold count_ones. by rewrite list_ascii_of_string_app, filter_app, length_app.
Qed.

Lemma length_filter_sum {A} (P : A -> Prop) `{!forall x, Decision (P x)} (l : list A) :
  length (filter P l) = sum_list_with (fun x => if decide (P x) then 1 else 0)%nat l.
Proof.
  induction l as [|x l IH]; [done|]. cbn [sum_list_with].
  destruct (decide (P x)).
  - rewrite filter_cons_True by done. cbn [length]. by rewrite IH.
  - rewrite filter_cons_False by done. by rewrite IH.
Qed.

Lemma sum_list_with_add {A} (f g : A -> nat) (l : list A) :
  sum_list_with (fun x => f x + g x)%nat l
  = (sum_list_with f l + sum_list_with g l)%nat.
Proof. induction l as [|x l IH]; [done|]. cbn [sum_list_with]. lia. Qed.

Lemma sum_list_with_ext_in {A} (f g : A -> nat) (l : list A) :
  (forall x, x ∈ l -> f x = g x) -> sum_list_with f l = sum_list_with g l.
Proof.
  induction l as [|x l IH]; intros Hfg; [done|]. cbn [sum_list_with].
  rewrite (Hfg x) by constructor. rewrite IH; [done|].
  intros y Hy. apply Hfg. by constructor.
Qed.

Lemma length_filter_fmap {A B} (h : A -> B) (P : B -> Prop)
    `{!forall y, Decision (P y)} (l : list A) :
  length (filter P (h <$> l)) = length (filter (fun x => P (h x)) l).
Proof.
  induction l as [|x l IH]; [done|]. rewrite fmap_cons.
  destruct (decide (P (h x))).
  - rewrite !filter_cons_True by done. cbn [length]. by rewrite IH.
  - by rewrite !filter_cons_False by done.
Qed.

(** The columns of a string that hold a "1" are as many as its "1"s. *)
Lemma count_ones_columns (s : string) :
  length (filter (fun c => String.get c s = Some "1"%char) (seq 0 (String.length s)))
  = count_ones s.
Proof.
  induction s as [|a s IH]; [done|].
  cbn [String.length seq]. rewrite <- fmap_S_seq.
  unfold count_ones. cbn [list_ascii_of_string].
  destruct (decide (a = "1"%char)) as [->|Ha].
  - rewrite !filter_cons_True by done. cbn [length].
    rewrite length_filter_fmap. cbn [String.get]. by rewrite IH.
  - rewrite !filter_cons_False by (done || cbn; congruence).
    rewrite length_filter_fmap. cbn [String.get]. by rewrite IH.
Qed.

(** The on cells counted column by column are the on cells counted row by
    row. *)
Lemma length_on_cells bitmap W :
  length (on_cells bitmap W)
  = sum_list_with
      (fun row => length (filter (fun col => on_cell bitmap (row, col)) (seq 0 W)))
      (seq 0 7).
Proof.
  induction W as [|n IH]; [done|].
  rewrite on_cells_S, length_app, IH. unfold column_cells.
  rewrite length_fmap, length_filter_sum, <- sum_list_with_add.
  apply sum_list_with_ext_in. intros row _.
  rewrite seq_S, filter_app, length_app. cbn [Nat.add]. f_equal.
  destruct (decide (on_cell bitmap (row, n))).
  - by rewrite filter_cons_True.
  - by rewrite filter_cons_False.
Qed.

Lemma grid_row_count bitmap W row line :
  grid bitmap W -> bitmap !! row = Some line ->
  length (filter (fun col => on_cell bitmap (row, col)) (seq 0 W)) = count_ones line.
Proof.
  intros [_ Hrows] Hline. eapply Forall_lookup_1 in Hrows; [|done].
  cbv beta in Hrows. subst W. rewrite <- count_ones_columns. f_equal.
  apply list_filter_iff. intros col. unfold on_cell. cbn [fst snd].
  by rewrite Hline.
Qed.

Lemma grid_pixels bitmap W :
  grid bitmap W ->
  length (on_cells bitmap W) = sum_list_with count_ones bitmap.
Proof.
  intros Hgrid. rewrite length_on_cells.
  pose proof Hgrid as [Hlen _].
  destruct bitmap as [|r0 [|r1 [|r2 [|r3 [|r4 [|r5 [|r6 [|]]]]]]]]; try discriminate.
  cbn [seq sum_list_with].
  by rewrite (grid_row_count _ _ 0 r0 Hgrid), (grid_row_count _ _ 1 r1 Hgrid),
    (grid_row_count _ _ 2 r2 Hgrid), (grid_row_count _ _ 3 r3 Hgrid),
    (grid_row_count _ _ 4 r4 Hgrid), (grid_row_count _ _ 5 r5 Hgrid),
    (grid_row_count _ _ 6 r6 Hgrid).
Qed.

Lemma pixel_dates_length bitmap W origin ds :
  grid bitmap W -> pixel_dates bitmap W origin = Ok ds ->
  length ds = sum_list_with count_ones bitmap.
Proof.
  intros Hgrid ->%pixel_dates_sound. unfold planned.
  rewrite length_fmap. by apply grid_pixels.
Qed.

(** X24. On a grid the pixel loop returns as many dates as the bitmap
    has "1" characters: the "Total 'on' pixels" of [main] is the number of
    "1"s. *)
Theorem X24_one_date_per_one bitmap W origin ds :
  grid bitmap W -> pixel_dates bitmap W origin = Ok ds ->
  length ds = sum_list_with count_ones bitmap.
Proof.
  apply pixel_dates_length.
Qed.

Lemma X24_witness :
  grid bitmap_A 5 /\
  pixel_dates bitmap_A 5 (ymd 2024 1 7) = Ok (planned bitmap_A 5 (ymd 2024 1 7)) /\
  length (planned bitmap_A 5 (ymd 2024 1 7)) = sum_list_with count_ones bitmap_A.
Proof.
  assert (Hgrid : grid bitmap_A 5) by (split; [reflexivity | repeat constructor]).
  assert (Hrun : pixel_dates bitmap_A 5 (ymd 2024 1 7)
                 = Ok (planned bitmap_A 5 (ymd 2024 1 7)))
    by (vm_compute; reflexivity).
  split; [exact Hgrid|]. split; [exact Hrun|].
  exact (X24_one_date_per_one bitmap_A 5 _ _ Hgrid Hrun).
Defined.

Lemma count_ones_str_mul gap : count_ones (str_mul "0" gap) = 0%nat.
Proof.
  unfold str_mul. induction (Z.to_nat gap) as [|n IH]; [done|].
  cbn [str_repeat]. by rewrite count_ones_app, IH.
Qed.

Lemma count_ones_join sep parts :
  count_ones sep = 0%nat ->
  count_ones (join sep parts) = sum_list_with count_ones parts.
Proof.
  intros Hsep. induction parts as [|a [|b t] IH];
    [done | cbn [join sum_list_with]; lia |].
  change (join sep (a :: b :: t)) with (a +:+ sep +:+ join sep (b :: t)).
  rewrite !count_ones_app, Hsep, IH. cbn [sum_list_with]. lia.
Qed.

Lemma sum_list_with_fmap {A B} (h : A -> B) (f : B -> nat) (l : list A) :
  sum_list_with f (h <$> l) = sum_list_with (fun x => f (h x)) l.
Proof. induction l as [|x l IH]; [done|]. cbn [fmap list_fmap sum_list_with]. by rewrite <- IH. Qed.

Lemma sum_list_with_swap {A B} (f : A -> B -> nat) (l : list A) (k : list B) :
  sum_list_with (fun x => sum_list_with (f x) k) l
  = sum_list_with (fun y => sum_list_with (fun x => f x y) l) k.
Proof.
  induction l as [|x l IH]; cbn [sum_list_with].
  - induction k as [|y k IHk]; [done|]. cbn [sum_list_with]. by rewrite <- IHk.
  - by rewrite IH, sum_list_with_add.
Qed.

Lemma glyph_pixels_rows ch :
  supported ch ->
  sum_list_with (fun r => count_ones (glyph_row ch r)) (seq 0 7) = glyph_pixels ch.
Proof.
  intros [pattern Hp]%supported_FONT_get. unfold glyph_pixels, glyph_row.
  rewrite Hp. destruct (FONT_get_shape _ _ Hp) as [Hlen _].
  destruct pattern as [|p0 [|p1 [|p2 [|p3 [|p4 [|p5 [|p6 [|]]]]]]]]; try discriminate.
  reflexivity.
Qed.

(** X25. The pixels of a message are the pixels of its characters, the
    gaps adding none: on the bitmap the builder returns, the pixel loop
    returns as many dates as the patterns of the characters have "1"s in
    all. *)
Theorem X25_pixels_add_up message gap bitmap row0 origin ds :
  build_bitmap message gap = Ok bitmap -> index bitmap 0 = Ok row0 ->
  pixel_dates bitmap (String.length row0) origin = Ok ds ->
  length ds = sum_list_with glyph_pixels (list_ascii_of_string message).
Proof.
  intros Hbitmap Hrow0 Hrun.
  rewrite (pixel_dates_length _ _ _ _ (built_bitmap_grid _ _ _ _ Hbitmap Hrow0) Hrun).
  destruct (build_bitmap_Ok_inv _ _ _ Hbitmap) as [Hall ->].
  unfold layout. rewrite sum_list_with_fmap.
  rewrite (sum_list_with_ext_in _
    (fun r => sum_list_with (fun ch => count_ones (glyph_row ch r))
                (list_ascii_of_string message))).
  2:{ intros r _. rewrite count_ones_join by apply count_ones_str_mul.
      by rewrite sum_list_with_fmap. }
  rewrite sum_list_with_swap. apply sum_list_with_ext_in.
  intros ch Hch. apply glyph_pixels_rows. rewrite Forall_forall in Hall. auto.
Qed.

Lemma X25_witness :
  build_bitmap "Pi" 2
  = Ok ["111100001110"; "100010000100"; "100010000100"; "111100000100";
        "100000000100"; "100000000100"; "100000001110"] /\
  exists ds,
    pixel_dates ["111100001110"; "100010000100"; "100010000100"; "111100000100";
                 "100000000100"; "100000000100"; "100000001110"]
      (String.length "111100001110") (ymd 2024 1 7) = Ok ds /\
    length ds = sum_list_with glyph_pixels (list_ascii_of_string "Pi").
Proof.
  assert (Hbitmap : build_bitmap "Pi" 2
    = Ok ["111100001110"; "100010000100"; "100010000100"; "111100000100";
          "100000000100"; "100000000100"; "100000001110"])
    by (vm_compute; reflexivity).
  split; [exact Hbitmap|]. eexists. split.
  - vm_compute. reflexivity.
  - refine (X25_pixels_add_up "Pi" 2 _ "111100001110" (ymd 2024 1 7) _ Hbitmap eq_refl _).
    vm_compute. reflexivity.
Defined.

(** ** Further runs *)

(** X26. Outside a git repository [main] stops at the repository check:
    it reports the error and exits with status 1 before the message is
    rendered, so even a message with an unsupported character, or a start
    date that does not parse, leads to this exit and to no other. *)
Theorem X26_outside_a_repository strptime message a w :
  in_work_tree w = false ->
  main_with strptime message a w
  = ([GitRevParse; Stderr ErrNotGitRepo], Raise (SystemExit 1)).
Proof.
  intros Hrepo. unfold main_with, ensure_git_repo. by rewrite Hrepo.
Qed.

Lemma X26_witness :
  main_with read_iso_date "Pix" (Args 4 (Some "next sunday") false)
    (Env false (ymd 2024 6 12) "y" (fun _ _ => true))
  = ([GitRevParse; Stderr ErrNotGitRepo], Raise (SystemExit 1)).
Proof.
  apply (X26_outside_a_repository read_iso_date "Pix"
           (Args 4 (Some "next sunday") false)
           (Env false (ymd 2024 6 12) "y" (fun _ _ => true))).
  reflexivity.
Defined.

(** X27. With no start date given, the grid ends with the current week:
    the week start returned with the origin is a Sunday at most six days
    before today, the origin lies W - 1 weeks before it, and every planned
    date lies between the origin and the day six days after that Sunday, a
    Saturday; so dates up to six days after today can be planned, and none
    later. *)
Theorem X27_default_grid_ends_this_week strptime a w bitmap W t cws start ds d :
  start_sunday a = None ->
  resolve_start strptime a w W = (t, Ok (cws, start)) ->
  pixel_dates bitmap W start = Ok ds -> d ∈ ds ->
  weekday cws = 6 /\
  toordinal (today w) - 6 <= toordinal cws <= toordinal (today w) /\
  toordinal start = toordinal cws - 7 * (Z.of_nat W - 1) /\
  toordinal start <= toordinal d <= toordinal cws + 6 /\
  (toordinal d = toordinal cws + 6 -> weekday d = 5).
Proof.
  intros Harg Hstart ->%pixel_dates_sound Hd.
  unfold resolve_start, default_start in Hstart. rewrite Harg in Hstart.
  destruct (get_sunday_of_week (today w)) as [cws'|] eqn:Hcws; [|discriminate].
  cbn [mbind result_bind rbind] in Hstart.
  destruct (sub cws' _) as [start'|] eqn:Hsub; [|discriminate].
  cbn in Hstart. injection Hstart as _ <- <-.
  apply get_sunday_of_week_Ok in Hcws as (_ & Hsun & Hweek).
  apply add_Ok in Hsub as [_ ->]. unfold weeks. cbn [toordinal].
  apply elem_of_planned in Hd as (row & col & Hrow & Hcol & _ & ->).
  unfold cell_date, weeks. cbn [toordinal fst snd].
  split; [done|]. split; [done|]. split; [lia|]. split; [lia|].
  intros Hsat. unfold weekday in *. cbn [toordinal].
  Z.to_euclidean_division_equations; lia.
Qed.

Lemma X27_witness :
  let a := Args 4 None false in
  let w := Env true (ymd 2024 6 12) "y" (fun _ _ => true) in
  ymd 2024 6 15 ∈ planned bitmap_A 5 (ymd 2024 5 12) /\
  weekday (ymd 2024 6 9) = 6 /\
  toordinal (today w) - 6 <= toordinal (ymd 2024 6 9) <= toordinal (today w) /\
  toordinal (ymd 2024 5 12) = toordinal (ymd 2024 6 9) - 7 * (Z.of_nat 5 - 1) /\
  toordinal (ymd 2024 5 12) <= toordinal (ymd 2024 6 15)
    <= toordinal (ymd 2024 6 9) + 6 /\
  (toordinal (ymd 2024 6 15) = toordinal (ymd 2024 6 9) + 6 ->
   weekday (ymd 2024 6 15) = 5).
Proof.
  intros a w.
  assert (Hin : ymd 2024 6 15 ∈ planned bitmap_A 5 (ymd 2024 5 12)).
  { vm_compute. do 17 apply list_elem_of_further. apply list_elem_of_here. }
  split; [exact Hin|].
  apply (X27_default_grid_ends_this_week read_iso_date a w bitmap_A 5 []
           (ymd 2024 6 9) (ymd 2024 5 12) (planned bitmap_A 5 (ymd 2024 5 12))
           (ymd 2024 6 15)).
  - reflexivity.
  - vm_compute. reflexivity.
  - vm_compute. reflexivity.
  - exact Hin.
Defined.
